(** * youtube-music-control: the command-line client, embedded and verified

    The development follows [youtube_music_control/__main__.py], the
    module that [setup.py] installs as the [youtube-music-control]
    command: the [API] class ([authenticate], [fetch_api_doc],
    [make_request]) and the functions [parse_arguments],
    [display_endpoints], [determine_http_method], [process_post_data] and
    [main].  The script [main.py] is an earlier copy of the same client,
    without [--patch] and [--delete].

    Python values are embedded as follows.
    - [str] is [string]; texts are taken to be ASCII, so that [upper] and
      [strip] only have to know the ASCII letters and blanks.
    - A value decoded from JSON is a [json]; a Python [dict] is an
      association list in insertion order ([Dict]), since the client
      depends on the iteration order of its catalog.
    - [float] is an IEEE binary64 number ([SpecFloat.spec_float]).
    - An uncaught Python exception is the [Raise] outcome of a computation.
    - [print], the argument parser's messages and the HTTP exchanges of
      [requests] are recorded, in order, in the log of the run. *)

From Stdlib Require Import ZArith List String Ascii Bool Lia.
From Stdlib Require Import Floats.SpecFloat Numbers.DecimalString.
Import ListNotations.

Set Warnings "-register-all".

Local Open Scope string_scope.
Local Open Scope Z_scope.

(* ================================================================== *)
(** ** Python strings *)

Module Str.

(** [s.startswith(p)] *)
Definition startswith (s p : string) : bool := String.prefix p s.

(** [s[n:]] *)
Fixpoint slice_from (n : nat) (s : string) : string :=
  match n, s with
  | O, _ => s
  | S n', String _ r => slice_from n' r
  | S _, EmptyString => EmptyString
  end.

(** [s.endswith(p)] *)
Definition endswith (s p : string) : bool :=
  (String.length p <=? String.length s)%nat &&
  String.eqb (slice_from (String.length s - String.length p) s) p.

(** [s.lstrip(c)] for a one-character set [c] *)
Fixpoint lstrip (c : ascii) (s : string) : string :=
  match s with
  | String a r => if Ascii.eqb a c then lstrip c r else s
  | EmptyString => EmptyString
  end.

(** [s.rstrip(c)] for a one-character set [c] *)
Fixpoint rstrip (c : ascii) (s : string) : string :=
  match s with
  | String a r =>
      match rstrip c r with
      | EmptyString => if Ascii.eqb a c then EmptyString
                       else String a EmptyString
      | r' => String a r'
      end
  | EmptyString => EmptyString
  end.

Definition upper_char (a : ascii) : ascii :=
  let n := nat_of_ascii a in
  if ((97 <=? n) && (n <=? 122))%nat then ascii_of_nat (n - 32) else a.

Definition lower_char (a : ascii) : ascii :=
  let n := nat_of_ascii a in
  if ((65 <=? n) && (n <=? 90))%nat then ascii_of_nat (n + 32) else a.

(** [s.upper()] *)
Fixpoint upper (s : string) : string :=
  match s with
  | String a r => String (upper_char a) (upper r)
  | EmptyString => EmptyString
  end.

Fixpoint lower (s : string) : string :=
  match s with
  | String a r => String (lower_char a) (lower r)
  | EmptyString => EmptyString
  end.

(** The ASCII characters for which [str.isspace] holds. *)
Definition isspace (a : ascii) : bool :=
  let n := nat_of_ascii a in
  ((9 <=? n) && (n <=? 13) || (28 <=? n) && (n <=? 32))%nat.

Fixpoint lstrip_space (s : string) : string :=
  match s with
  | String a r => if isspace a then lstrip_space r else s
  | EmptyString => EmptyString
  end.

Fixpoint rstrip_space (s : string) : string :=
  match s with
  | String a r =>
      match rstrip_space r with
      | EmptyString => if isspace a then EmptyString
                       else String a EmptyString
      | r' => String a r'
      end
  | EmptyString => EmptyString
  end.

(** [s.strip()] *)
Definition strip (s : string) : string := rstrip_space (lstrip_space s).

(** [sub in s] on strings *)
Fixpoint contains (s sub : string) : bool :=
  String.prefix sub s ||
  match s with
  | String _ r => contains r sub
  | EmptyString => false
  end.

(** [str(n)] for an [int] *)
Definition of_Z (n : Z) : string := NilZero.string_of_int (Z.to_int n).

(** [c * n] *)
Fixpoint repeat (c : ascii) (n : nat) : string :=
  match n with
  | O => EmptyString
  | S n' => String c (repeat c n')
  end.

End Str.

(* ================================================================== *)
(** ** Python floats *)

Module Float.

Definition float : Type := spec_float.

Definition prec : Z := 53.
Definition emax : Z := 1024.

(** The correctly rounded binary64 value of [(-1)^s * m * 10^e]. *)
Definition of_decimal (s : bool) (m : Z) (e : Z) : float :=
  match m with
  | Zpos p =>
      if 0 <=? e
      then binary_round prec emax s (p * Z.to_pos (10 ^ e))%positive 0
      else SFdiv prec emax (S754_finite s p 0)
                 (S754_finite false (Z.to_pos (10 ^ (- e))) 0)
  | _ => S754_zero s
  end.

(** [float(n)] for an [int]: [OverflowError] when [n] is out of range. *)
Definition of_Z (n : Z) : option float :=
  match binary_normalize prec emax n 0 false with
  | S754_infinity _ => None
  | f => Some f
  end.

(** [f.is_integer()] *)
Definition is_integer (f : float) : bool :=
  match f with
  | S754_zero _ => true
  | S754_finite _ m e =>
      if 0 <=? e then true else Zpos m mod 2 ^ (- e) =? 0
  | _ => false
  end.

(** [int(f)]: truncation; [OverflowError] on an infinity and
    [ValueError] on a NaN. *)
Definition to_Z (f : float) : option Z :=
  match f with
  | S754_zero _ => Some 0
  | S754_finite s m e =>
      let a := if 0 <=? e then Zpos m * 2 ^ e else Zpos m / 2 ^ (- e) in
      Some (if s then - a else a)
  | _ => None
  end.

(** [bool(f)] *)
Definition truthy (f : float) : bool :=
  match f with
  | S754_zero _ => false
  | _ => true
  end.

(** *** [float(s)] for a [str] *)

Definition digit_val (a : ascii) : option Z :=
  let n := nat_of_ascii a in
  if ((48 <=? n) && (n <=? 57))%nat then Some (Z.of_nat (n - 48)) else None.

(** The digits that follow the first one of a [digitpart]; a single
    underscore may separate two digits.  Returns the value read, the
    number of digits and the rest of the text. *)
Fixpoint digitpart_tail (acc : Z) (n : nat) (l : list ascii)
  : Z * nat * list ascii :=
  match l with
  | c :: r =>
      match digit_val c with
      | Some d => digitpart_tail (acc * 10 + d) (S n) r
      | None =>
          if Ascii.eqb c "_" then
            match r with
            | c2 :: r2 =>
                match digit_val c2 with
                | Some d => digitpart_tail (acc * 10 + d) (S n) r2
                | None => (acc, n, l)
                end
            | [] => (acc, n, l)
            end
          else (acc, n, l)
      end
  | [] => (acc, n, l)
  end.

Definition digitpart (acc : Z) (l : list ascii)
  : option (Z * nat * list ascii) :=
  match l with
  | c :: r =>
      match digit_val c with
      | Some d => Some (digitpart_tail (acc * 10 + d) 1 r)
      | None => None
      end
  | [] => None
  end.

Definition sign (l : list ascii) : bool * list ascii :=
  match l with
  | "-"%char :: r => (true, r)
  | "+"%char :: r => (false, r)
  | _ => (false, l)
  end.

(** [number ::= [digitpart] "." digitpart | digitpart ["."]]:
    the digits as one integer and the count of fractional digits. *)
Definition number (l : list ascii) : option (Z * nat * list ascii) :=
  match digitpart 0 l with
  | Some (i, _, "."%char :: r) =>
      match digitpart i r with
      | Some (m, nf, r') => Some (m, nf, r')
      | None => Some (i, O, r)
      end
  | Some (i, _, r) => Some (i, O, r)
  | None =>
      match l with
      | "."%char :: r => digitpart 0 r
      | _ => None
      end
  end.

(** [exponent ::= ("e" | "E") [sign] digitpart] *)
Definition exponent (l : list ascii) : option (Z * list ascii) :=
  match l with
  | [] => Some (0, [])
  | c :: r =>
      if Ascii.eqb c "e" || Ascii.eqb c "E" then
        let '(neg, r1) := sign r in
        match digitpart 0 r1 with
        | Some (x, _, r2) => Some (if neg then - x else x, r2)
        | None => None
        end
      else None
  end.

Definition of_str (s : string) : option float :=
  let '(neg, body) := sign (list_ascii_of_string (Str.strip s)) in
  let word := Str.lower (string_of_list_ascii body) in
  if String.eqb word "inf" || String.eqb word "infinity"
  then Some (S754_infinity neg)
  else if String.eqb word "nan" then Some S754_nan
  else
    match number body with
    | Some (m, nf, r) =>
        match exponent r with
        | Some (x, []) => Some (of_decimal neg m (x - Z.of_nat nf))
        | _ => None
        end
    | None => None
    end.

End Float.

(* ================================================================== *)
(** ** Decoded JSON values and Python dicts *)

Inductive json : Type :=
| JNull                                   (* None *)
| JBool (b : bool)
| JInt (n : Z)
| JFloat (f : Float.float)
| JStr (s : string)
| JArr (l : list json)
| JObj (d : list (string * json)).        (* a dict with str keys *)

(** A Python [dict] with [str] keys: the entries in insertion order. *)
Module Dict.

Definition t (V : Type) : Type := list (string * V).

Section Ops.
Context {V : Type}.

(** [d.get(k)] *)
Fixpoint get (k : string) (d : t V) : option V :=
  match d with
  | (k', v) :: r => if String.eqb k' k then Some v else get k r
  | [] => None
  end.

(** [k in d] *)
Definition mem (k : string) (d : t V) : bool :=
  match get k d with Some _ => true | None => false end.

(** [d[k] = v]: an existing key keeps its place, a new one goes last. *)
Fixpoint set (k : string) (v : V) (d : t V) : t V :=
  match d with
  | (k', v') :: r =>
      if String.eqb k' k then (k', v) :: r else (k', v') :: set k v r
  | [] => [(k, v)]
  end.

(** [list(d.keys())] *)
Definition keys (d : t V) : list string := map fst d.

(** [d.get(k, default)] *)
Definition get_default (k : string) (default : V) (d : t V) : V :=
  match get k d with Some v => v | None => default end.

End Ops.

End Dict.

(** [bool(v)] *)
Definition truthy (v : json) : bool :=
  match v with
  | JNull => false
  | JBool b => b
  | JInt n => negb (n =? 0)
  | JFloat f => Float.truthy f
  | JStr s => negb (String.eqb s EmptyString)
  | JArr l => match l with [] => false | _ => true end
  | JObj d => match d with [] => false | _ => true end
  end.

(** [v == s] for a [str] literal [s] *)
Definition is_str (v : json) (s : string) : bool :=
  match v with
  | JStr s' => String.eqb s' s
  | _ => false
  end.

(** [isinstance(v, dict)] *)
Definition is_dict (v : json) : bool :=
  match v with
  | JObj _ => true
  | _ => false
  end.

(** Uncaught exceptions. *)
Inductive exn : Type :=
| AttributeError
| TypeError
| KeyError
| IndexError
| JSONDecodeError
| RequestException
| SystemExit (code : Z).

Inductive outcome (A : Type) : Type :=
| Ok (a : A)
| Raise (e : exn).
Arguments Ok {A} a.
Arguments Raise {A} e.

Definition obind {A B} (x : outcome A) (f : A -> outcome B) : outcome B :=
  match x with
  | Ok a => f a
  | Raise e => Raise e
  end.

(** [float(v)]; [None] stands for the [ValueError], [TypeError] or
    [OverflowError] that Python raises. *)
Definition py_float (v : json) : option Float.float :=
  match v with
  | JFloat f => Some f
  | JInt n => Float.of_Z n
  | JBool b => Float.of_Z (if b then 1 else 0)
  | JStr s => Float.of_str s
  | JNull | JArr _ | JObj _ => None
  end.

(** [v.get(k, default)]: defined on dicts only. *)
Definition py_get (v : json) (k : string) (default : json) : outcome json :=
  match v with
  | JObj d => Ok (Dict.get_default k default d)
  | _ => Raise AttributeError
  end.

(** [hash(v)] succeeds: lists and dicts are unhashable. *)
Definition hashable (v : json) : bool :=
  match v with
  | JArr _ | JObj _ => false
  | _ => true
  end.

(** [d.get(key, default)] on a decoded dict [d] for an arbitrary decoded
    [key]: only a [str] can be among the keys; an unhashable key raises. *)
Definition py_get_key (v : json) (key : json) (default : json)
  : outcome json :=
  match v with
  | JObj d =>
      match key with
      | JStr k => Ok (Dict.get_default k default d)
      | JArr _ | JObj _ => Raise TypeError
      | _ => Ok default
      end
  | _ => Raise AttributeError
  end.

(** [len(v)] *)
Definition py_len (v : json) : outcome nat :=
  match v with
  | JStr s => Ok (String.length s)
  | JArr l => Ok (List.length l)
  | JObj d => Ok (List.length d)
  | _ => Raise TypeError
  end.

(** [v[0]] *)
Definition py_first (v : json) : outcome json :=
  match v with
  | JStr (String a _) => Ok (JStr (String a EmptyString))
  | JStr EmptyString => Raise IndexError
  | JArr (x :: _) => Ok x
  | JArr [] => Raise IndexError
  | JObj _ => Raise KeyError
  | _ => Raise TypeError
  end.

(** *** The endpoint catalog *)

(** The dict [{"description": ..., "data": ..., "schema": ...}] that
    [fetch_api_doc] stores for a method. *)
Record descriptor : Type := Descriptor {
  description : json;
  data_info : json;
  schema : json;
}.

Definition methods : Type := Dict.t descriptor.
Definition catalog : Type := Dict.t methods.

(* ================================================================== *)
(** ** What a run exchanges with the outside *)

(** The value passed as [json=] to [requests.request]: either the decoded
    data argument itself or the one-entry dict [{key: value}] built by
    [process_post_data] (whose key is whatever the schema lists). *)
Inductive payload : Type :=
| Loaded (v : json)
| Wrapped (key value : json).

(** A call of [requests]: the method, the URL, the token of the
    [Authorization: Bearer] header when a header is passed, and the body. *)
Record request : Type := Request {
  req_method : string;
  req_url : string;
  req_bearer : option json;
  req_json : option payload;
}.

(** What the client reads of a [requests.Response]; [json_body] is the
    result of [response.json()], [None] when it raises. *)
Record response : Type := Response {
  status_code : Z;
  reason : string;
  text : string;
  json_body : option json;
}.

(** [response.ok]: the status is not a 4xx or 5xx one. *)
Definition ok (r : response) : bool :=
  negb ((400 <=? status_code r) && (status_code r <? 600)).

(** A printed line is kept as the pieces of its format string: literal
    text, [str(v)] of a decoded value, or [json.dumps(v, indent=2)]. *)
Inductive frag : Type :=
| Lit (s : string)
| Str (v : json)
| Dumps (p : payload).

Inductive event : Type :=
| Out (line : list frag)                       (* print(...) *)
| Http (r : request) (resp : option response)  (* None: requests raised *)
| Help                                         (* parser.print_help() *)
| Usage (msg : string).                        (* parser.error(msg) *)

(** The namespace returned by [parser.parse_args()]. *)
Record Args : Type := MkArgs {
  arg_server : string;
  arg_api : string;
  arg_user : string;
  arg_patch : bool;
  arg_delete : bool;
  arg_list : bool;
  arg_verbose : bool;
  arg_endpoint : option string;
  arg_data : option string;
}.

(** [f"{args.endpoint}"] *)
Definition endpoint_text (a : Args) : string :=
  match arg_endpoint a with Some e => e | None => "None" end.

(** [endpoints.get(args.endpoint, {})] *)
Definition endpoint_doc (a : Args) (endpoints : catalog) : methods :=
  match arg_endpoint a with
  | Some e => Dict.get_default e [] endpoints
  | None => []
  end.

(** [endpoints.get(args.endpoint, {}).get(http_method, {}).get("schema")] *)
Definition schema_for (http_method : string) (a : Args) (endpoints : catalog)
  : json :=
  match Dict.get http_method (endpoint_doc a endpoints) with
  | Some d => schema d
  | None => JNull
  end.

(** The [API] object. *)
Record API : Type := MkAPI {
  server : string;
  api : string;
}.

(** [API.__init__] *)
Definition API_init (server api : string) : API :=
  MkAPI (Str.rstrip "/" server) (Str.rstrip "/" api).

Definition auth_url (self : API) (username : string) : string :=
  server self ++ "/auth/" ++ username.

Definition doc_url (self : API) : string := server self ++ "/doc".

Definition request_url (self : API) (endpoint : string) : string :=
  server self ++ api self ++ "/" ++ endpoint.

Definition auth_request (self : API) (username : string) : request :=
  Request "POST" (auth_url self username) None None.

Definition doc_request (self : API) : request :=
  Request "GET" (doc_url self) None None.

Definition main_request (self : API) (token : json) (endpoint : string)
    (http_method : string) (post_data : option payload) : request :=
  Request http_method (request_url self endpoint) (Some token) post_data.

Definition failure_line (r : response) : list frag :=
  [Lit ("Request failed: " ++ Str.of_Z (status_code r) ++ " " ++ reason r)].

Definition status_line (http_method url : string) (r : response)
  : list frag :=
  [Lit (http_method ++ " " ++ url ++ " " ++ Str.of_Z (status_code r))].

(** *** Building the catalog (the loop of [fetch_api_doc]) *)

(** ["application/json" in content], then
    [content["application/json"].get("schema", {})]. *)
Definition schema_of_content (content : json) : outcome json :=
  match content with
  | JObj d =>
      match Dict.get "application/json" d with
      | Some c => py_get c "schema" (JObj [])
      | None => Ok JNull
      end
  | JStr s =>
      if Str.contains s "application/json" then Raise TypeError else Ok JNull
  | JArr l =>
      if existsb (fun v => is_str v "application/json") l
      then Raise TypeError else Ok JNull
  | _ => Raise TypeError
  end.

(** The body of the inner loop: the descriptor stored for [method]
    (already upper-cased). *)
Definition describe (endpoint method : string) (details : json)
  : outcome descriptor :=
  match details with
  | JObj d =>
      let description := Dict.get_default "description" (JStr endpoint) d in
      if (String.eqb method "POST" || String.eqb method "PATCH") &&
         Dict.mem "requestBody" d
      then
        let req_body := Dict.get_default "requestBody" JNull d in
        obind (py_get req_body "description" (JStr "no description"))
          (fun data =>
        obind (py_get req_body "content" (JObj []))
          (fun content =>
        obind (schema_of_content content)
          (fun schema =>
        Ok (Descriptor description data schema))))
      else Ok (Descriptor description JNull JNull)
  | _ => Raise AttributeError
  end.

(** [for method, details in methods.items(): ...] *)
Fixpoint add_methods (endpoint : string) (ops : list (string * json))
    (ms : methods) : outcome methods :=
  match ops with
  | (method, details) :: rest =>
      let method := Str.upper method in
      obind (describe endpoint method details)
        (fun d => add_methods endpoint rest (Dict.set method d ms))
  | [] => Ok ms
  end.

(** The endpoint name of a path under the prefix. *)
Definition endpoint_name (self : API) (path : string) : string :=
  Str.lstrip "/" (Str.slice_from (String.length (api self)) path).

(** [for path, methods in paths.items(): ...] *)
Fixpoint add_paths (self : API) (paths : list (string * json))
    (endpoints : catalog) : outcome catalog :=
  match paths with
  | (path, ops) :: rest =>
      if negb (Str.startswith path (api self)) then
        add_paths self rest endpoints
      else if Str.endswith path "-info" then
        add_paths self rest endpoints
      else
        let endpoint := endpoint_name self path in
        let endpoints :=
          if negb (Dict.mem endpoint endpoints)
          then Dict.set endpoint [] endpoints else endpoints in
        match ops with
        | JObj ops =>
            obind (add_methods endpoint ops
                     (Dict.get_default endpoint [] endpoints))
              (fun ms => add_paths self rest (Dict.set endpoint ms endpoints))
        | _ => Raise AttributeError
        end
  | [] => Ok endpoints
  end.

(** The part of [fetch_api_doc] that follows [api_doc = response.json()]. *)
Definition build_catalog (self : API) (api_doc : json) : outcome catalog :=
  obind (py_get api_doc "paths" (JObj []))
    (fun paths =>
       match paths with
       | JObj ps => add_paths self ps []
       | _ => Raise AttributeError
       end).

(** *** [determine_http_method] *)

Definition determine_http_method (args : Args) (endpoints : catalog)
  : outcome string :=
  if arg_delete args then Ok "DELETE"
  else if arg_patch args then Ok "PATCH"
  else
    match arg_data args with
    | Some _ => Ok "POST"
    | None =>
        match arg_endpoint args with
        | None => Ok "GET"
        | Some e =>
            match Dict.get e endpoints with
            | None => Ok "GET"
            | Some methods =>
                if Dict.mem "GET" methods then Ok "GET"
                else
                  match Dict.keys methods with
                  | m :: _ => Ok m
                  | [] => Raise IndexError
                  end
            end
        end
    end.

(* ================================================================== *)
(** ** The client

    The transport and the JSON decoder are not part of the program: the
    client is written over an arbitrary server ([World], [http]) and an
    arbitrary [json.loads]. *)

Section Client.

Variable World : Type.

(** [requests.request]: the response, or [None] when the transport
    raises, and the next state of the outside. *)
Variable http : request -> World -> option response * World.

(** [json.loads]; [None] stands for [json.JSONDecodeError]. *)
Variable json_loads : string -> option json.

Record state : Type := State {
  world : World;
  log : list event;
}.

Definition M (A : Type) : Type := state -> outcome A * state.

Definition ret {A} (a : A) : M A := fun s => (Ok a, s).

Definition bind {A B} (c : M A) (f : A -> M B) : M B :=
  fun s =>
    match c s with
    | (Ok a, s') => f a s'
    | (Raise e, s') => (Raise e, s')
    end.

Definition raise {A} (e : exn) : M A := fun s => (Raise e, s).

Definition lift {A} (x : outcome A) : M A := fun s => (x, s).

Definition emit (e : event) : M unit :=
  fun s => (Ok tt, State (world s) (log s ++ [e])).

Definition print (line : list frag) : M unit := emit (Out line).

Definition when (b : bool) (c : M unit) : M unit :=
  if b then c else ret tt.

Notation "x <- c ;; k" := (bind c (fun x => k))
  (at level 61, c at next level, right associativity).
Notation "c ;; k" := (bind c (fun _ => k))
  (at level 61, right associativity).

(** [requests.request(...)] *)
Definition send (r : request) : M response :=
  fun s =>
    let '(resp, w) := http r (world s) in
    let s' := State w (log s ++ [Http r resp]) in
    match resp with
    | Some x => (Ok x, s')
    | None => (Raise RequestException, s')
    end.

(** [response.json()] *)
Definition response_json (r : response) : M json :=
  match json_body r with
  | Some v => ret v
  | None => raise JSONDecodeError
  end.

(** *** [API.authenticate] *)
Definition authenticate (self : API) (username : string) (verbose : bool)
  : M json :=
  let url := auth_url self username in
  response <- send (auth_request self username) ;;
  if negb (status_code response =? 200) then
    print (failure_line response) ;;
    print [Lit url] ;;
    ret JNull
  else
    when verbose (print (status_line "POST" url response)) ;;
    body <- response_json response ;;
    lift (py_get body "accessToken" JNull).

(** *** [API.fetch_api_doc] *)
Definition fetch_api_doc (self : API) (verbose print_data : bool)
  : M catalog :=
  let url := doc_url self in
  response <- send (doc_request self) ;;
  if negb (status_code response =? 200) then
    print (failure_line response) ;;
    print [Lit url] ;;
    ret []
  else
    when verbose (print (status_line "GET" url response)) ;;
    when (print_data && (status_code response =? 200) &&
          negb (String.eqb (Str.strip (text response)) EmptyString))
      match json_body response with
      | Some data => print [Dumps (Loaded data)]
      | None => print [Lit (text response)]
      end ;;
    api_doc <- response_json response ;;
    lift (build_catalog self api_doc).

(** *** [API.make_request] *)

(** The value of [parsed_data] after a successful response. *)
Definition parse_response (r : response) : json :=
  let stripped := Str.strip (text r) in
  if negb (String.eqb stripped EmptyString) then
    match json_body r with
    | Some v => v
    | None => JStr stripped
    end
  else JNull.

Definition make_request (self : API) (token : json) (endpoint : string)
    (http_method : string) (verbose : bool) (post_data : option payload)
  : M unit :=
  let url := request_url self endpoint in
  when verbose
    (if String.eqb http_method "POST" || String.eqb http_method "PATCH"
     then match post_data with
          | Some p => print [Dumps p]
          | None => ret tt
          end
     else ret tt) ;;
  response <- send (main_request self token endpoint http_method post_data) ;;
  if negb (ok response) then
    print (failure_line response) ;;
    print [Lit url]
  else
    let parsed_data := parse_response response in
    when verbose (print (status_line http_method url response)) ;;
    when (truthy parsed_data)
      (if is_dict parsed_data
       then print [Dumps (Loaded parsed_data)]
       else print [Str parsed_data]).

(** *** [parse_arguments]: the check made on the parsed namespace *)
Definition parse_arguments (args : Args) : M Args :=
  if arg_delete args && arg_patch args then
    emit (Usage
      "Cannot specify both --delete and --patch options simultaneously.") ;;
    raise (SystemExit 2)
  else ret args.

(** *** [display_endpoints] *)

(** One round of [for method, details in methods.items()]. *)
Definition method_text (count : nat) (method : string) (details : descriptor)
  : list frag :=
  (if Nat.eqb count 1
   then [Lit ": "; Str (description details)]
   else [Lit (String "010" "    " ++ method ++ ": ");
         Str (description details)])
  ++
  (if (String.eqb method "POST" || String.eqb method "PATCH") &&
      truthy (data_info details)
   then [Lit " (data: "; Str (data_info details); Lit ")"]
   else []).

Definition endpoint_line (endpoint : string) (ms : methods) : list frag :=
  Lit ("  " ++ endpoint)
  :: flat_map (fun '(method, details) =>
                 method_text (List.length ms) method details) ms.

Fixpoint print_lines (endpoints : catalog) : M unit :=
  match endpoints with
  | (endpoint, ms) :: rest =>
      print (endpoint_line endpoint ms) ;; print_lines rest
  | [] => ret tt
  end.

Definition display_endpoints (endpoints : catalog) : M unit :=
  match endpoints with
  | [] => print [Lit "No endpoints found!"]
  | _ => print [Lit "Available API endpoints:"] ;; print_lines endpoints
  end.

(** *** [process_post_data] *)

(** [float(loaded)], narrowed by [int] when [is_integer] holds; the
    value is left as it is when any of this raises. *)
Definition coerce_number (loaded : json) : json :=
  match py_float loaded with
  | Some value =>
      if Float.is_integer value then
        match Float.to_Z value with
        | Some n => JInt n
        | None => loaded
        end
      else JFloat value
  | None => loaded
  end.

(** [{key: loaded}] *)
Definition wrap (key loaded : json) : outcome payload :=
  if hashable key then Ok (Wrapped key loaded) else Raise TypeError.

(** [try: loaded = json.loads(data)] with
    [except json.JSONDecodeError: loaded = data]. *)
Definition loads_or_text (data : string) : json :=
  match json_loads data with
  | Some v => v
  | None => JStr data
  end.

Definition process_post_data (http_method : string) (args : Args)
    (endpoints : catalog) : M (option payload) :=
  if negb (String.eqb http_method "POST" || String.eqb http_method "PATCH")
  then ret None
  else
    match arg_data args with
    | None => ret None
    | Some data =>
        let loaded := loads_or_text data in
        if is_dict loaded then ret (Some (Loaded loaded))
        else
          let schema := schema_for http_method args endpoints in
          match schema with
          | JNull =>
              print [Lit ("No " ++ http_method ++ " data schema for "
                          ++ endpoint_text args)] ;;
              ret None
          | _ =>
              type <- lift (py_get schema "type" JNull) ;;
              if negb (is_str type "object") then ret (Some (Loaded loaded))
              else
                properties <- lift (py_get schema "properties" (JObj [])) ;;
                required <- lift (py_get schema "required" (JArr [])) ;;
                n <- lift (py_len required) ;;
                if negb (Nat.eqb n 1) then
                  print [Lit (endpoint_text args ++ " " ++ http_method
                              ++ " requires an object")] ;;
                  ret None
                else
                  key <- lift (py_first required) ;;
                  property <- lift (py_get_key properties key (JObj [])) ;;
                  ptype <- lift (py_get property "type" JNull) ;;
                  let loaded :=
                    if is_str ptype "number" then coerce_number loaded
                    else loaded in
                  body <- lift (wrap key loaded) ;;
                  ret (Some body)
          end
    end.

(** *** [main] *)

Definition nonempty (s : option string) : bool :=
  match s with
  | Some e => negb (String.eqb e EmptyString)
  | None => false
  end.

Definition main (argv : Args) : M unit :=
  args <- parse_arguments argv ;;
  let api := API_init (arg_server args) (arg_api args) in
  if arg_list args then
    endpoints <- fetch_api_doc api (arg_verbose args) (arg_verbose args) ;;
    display_endpoints endpoints
  else if negb (nonempty (arg_endpoint args)) then
    emit Help
  else
    endpoints <- fetch_api_doc api (arg_verbose args) false ;;
    http_method <- lift (determine_http_method args endpoints) ;;
    post_data <- process_post_data http_method args endpoints ;;
    token <- authenticate api (arg_user args) (arg_verbose args) ;;
    when (truthy token)
      (make_request api token (endpoint_text args) http_method
         (arg_verbose args) post_data).

(** A run from a fresh process: nothing printed or sent yet. *)
Definition run (argv : Args) (w : World) : outcome unit * state :=
  main argv (State w []).

End Client.

Arguments State {World} world log.
Arguments world {World} s.
Arguments log {World} s.
Arguments ret {World A} a s.
Arguments bind {World A B} c f s.
Arguments raise {World A} e s.
Arguments lift {World A} x s.
Arguments emit {World} e s.
Arguments print {World} line s.
Arguments when {World} b c s.
Arguments send {World} http r s.
Arguments response_json {World} r s.
Arguments authenticate {World} http self username verbose s.
Arguments fetch_api_doc {World} http self verbose print_data s.
Arguments make_request {World} http self token endpoint http_method
  verbose post_data s.
Arguments parse_arguments {World} args s.
Arguments print_lines {World} endpoints s.
Arguments display_endpoints {World} endpoints s.
Arguments process_post_data {World} json_loads http_method args endpoints s.
Arguments main {World} http json_loads argv s.
Arguments run {World} http json_loads argv w.

(* ================================================================== *)
(** ** A JSON decoder and a server, to run the client

    [Decoder.loads] reads JSON texts the way [json.loads] does on ASCII
    input; escapes that denote a character outside ASCII are not
    supported.  It instantiates [json_loads] in the concrete runs. *)

Module Decoder.

Definition is_ws (a : ascii) : bool :=
  Ascii.eqb a " " || Ascii.eqb a "009" || Ascii.eqb a "010"
  || Ascii.eqb a "013".

Fixpoint skip_ws (l : list ascii) : list ascii :=
  match l with
  | c :: r => if is_ws c then skip_ws r else l
  | [] => []
  end.

Definition hex_val (a : ascii) : option nat :=
  let n := nat_of_ascii a in
  if ((48 <=? n) && (n <=? 57))%nat then Some (n - 48)%nat
  else if ((97 <=? n) && (n <=? 102))%nat then Some (n - 87)%nat
  else if ((65 <=? n) && (n <=? 70))%nat then Some (n - 55)%nat
  else None.

Definition escape (c : ascii) : option ascii :=
  if Ascii.eqb c "034" then Some "034"%char
  else if Ascii.eqb c "\" then Some "\"%char
  else if Ascii.eqb c "/" then Some "/"%char
  else if Ascii.eqb c "b" then Some "008"%char
  else if Ascii.eqb c "f" then Some "012"%char
  else if Ascii.eqb c "n" then Some "010"%char
  else if Ascii.eqb c "r" then Some "013"%char
  else if Ascii.eqb c "t" then Some "009"%char
  else None.

(** The characters of a string literal, after its opening quote. *)
Fixpoint scanstring (l : list ascii) : option (string * list ascii) :=
  match l with
  | [] => None
  | c :: r =>
      if Ascii.eqb c "034" then Some (EmptyString, r)
      else if Ascii.eqb c "\" then
        match r with
        | "u"%char :: h1 :: h2 :: h3 :: h4 :: r' =>
            match hex_val h1, hex_val h2, hex_val h3, hex_val h4 with
            | Some a, Some b, Some c, Some d =>
                let n := (((a * 16 + b) * 16 + c) * 16 + d)%nat in
                if (n <? 128)%nat then
                  match scanstring r' with
                  | Some (s, rest) => Some (String (ascii_of_nat n) s, rest)
                  | None => None
                  end
                else None
            | _, _, _, _ => None
            end
        | e :: r' =>
            match escape e, scanstring r' with
            | Some x, Some (s, rest) => Some (String x s, rest)
            | _, _ => None
            end
        | [] => None
        end
      else if (nat_of_ascii c <? 32)%nat then None
      else
        match scanstring r with
        | Some (s, rest) => Some (String c s, rest)
        | None => None
        end
  end.

(** A run of digits: its value, its length and the rest. *)
Fixpoint digits (acc : Z) (n : nat) (l : list ascii)
  : Z * nat * list ascii :=
  match l with
  | c :: r =>
      match Float.digit_val c with
      | Some d => digits (acc * 10 + d) (S n) r
      | None => (acc, n, l)
      end
  | [] => (acc, n, l)
  end.

(** The integer part: a single 0, or digits that do not start with 0. *)
Definition integer (l : list ascii) : option (Z * list ascii) :=
  match l with
  | "0"%char :: r => Some (0, r)
  | _ =>
      match digits 0 O l with
      | (_, O, _) => None
      | (v, _, r) => Some (v, r)
      end
  end.

(** An optional fraction, a dot and at least one digit: the digits
    appended to [i], and how many. *)
Definition fraction (i : Z) (l : list ascii)
  : option (Z * nat) * list ascii :=
  match l with
  | "."%char :: r =>
      match digits i O r with
      | (_, O, _) => (None, l)
      | (v, n, r') => (Some (v, n), r')
      end
  | _ => (None, l)
  end.

(** An optional exponent: e or E, an optional sign, at least one digit. *)
Definition exponent (l : list ascii) : option Z * list ascii :=
  match l with
  | c :: r =>
      if Ascii.eqb c "e" || Ascii.eqb c "E" then
        let '(neg, r1) := Float.sign r in
        match digits 0 O r1 with
        | (_, O, _) => (None, l)
        | (v, _, r2) => (Some (if neg then - v else v), r2)
        end
      else (None, l)
  | [] => (None, l)
  end.

Definition number (l : list ascii) : option (json * list ascii) :=
  let '(neg, r0) :=
    match l with
    | "-"%char :: r => (true, r)
    | _ => (false, l)
    end in
  match integer r0 with
  | None => None
  | Some (i, r1) =>
      let '(frac, r2) := fraction i r1 in
      let '(ex, r3) := exponent r2 in
      match frac, ex with
      | None, None => Some (JInt (if neg then - i else i), r3)
      | _, _ =>
          let '(m, nf) :=
            match frac with Some x => x | None => (i, O) end in
          let x := match ex with Some x => x | None => 0 end in
          Some (JFloat (Float.of_decimal neg m (x - Z.of_nat nf)), r3)
      end
  end.

Definition literal (word : string) (v : json) (l : list ascii)
  : option (json * list ascii) :=
  let w := list_ascii_of_string word in
  if String.eqb (string_of_list_ascii (firstn (List.length w) l)) word
  then Some (v, skipn (List.length w) l) else None.

Definition first_of {A} (x y : option A) : option A :=
  match x with Some _ => x | None => y end.

Definition scalar (l : list ascii) : option (json * list ascii) :=
  match l with
  | "034"%char :: r =>
      match scanstring r with
      | Some (s, rest) => Some (JStr s, rest)
      | None => None
      end
  | "n"%char :: _ => literal "null" JNull l
  | "t"%char :: _ => literal "true" (JBool true) l
  | "f"%char :: _ => literal "false" (JBool false) l
  | "N"%char :: _ => literal "NaN" (JFloat S754_nan) l
  | "I"%char :: _ => literal "Infinity" (JFloat (S754_infinity false)) l
  | _ =>
      first_of (number l)
               (literal "-Infinity" (JFloat (S754_infinity true)) l)
  end.

Fixpoint value (fuel : nat) (l : list ascii) {struct fuel}
  : option (json * list ascii) :=
  match fuel with
  | O => None
  | S fuel =>
      match l with
      | "["%char :: r =>
          match skip_ws r with
          | "]"%char :: rest => Some (JArr [], rest)
          | r' =>
              match elements fuel r' with
              | Some (vs, rest) => Some (JArr vs, rest)
              | None => None
              end
          end
      | "{"%char :: r =>
          match skip_ws r with
          | "}"%char :: rest => Some (JObj [], rest)
          | r' =>
              match members fuel r' [] with
              | Some (d, rest) => Some (JObj d, rest)
              | None => None
              end
          end
      | _ => scalar l
      end
  end

with elements (fuel : nat) (l : list ascii) {struct fuel}
  : option (list json * list ascii) :=
  match fuel with
  | O => None
  | S fuel =>
      match value fuel l with
      | Some (v, r) =>
          match skip_ws r with
          | "]"%char :: rest => Some ([v], rest)
          | ","%char :: r' =>
              match elements fuel (skip_ws r') with
              | Some (vs, rest) => Some (v :: vs, rest)
              | None => None
              end
          | _ => None
          end
      | None => None
      end
  end

with members (fuel : nat) (l : list ascii) (acc : Dict.t json)
  {struct fuel} : option (Dict.t json * list ascii) :=
  match fuel with
  | O => None
  | S fuel =>
      match l with
      | "034"%char :: r =>
          match scanstring r with
          | Some (k, r1) =>
              match skip_ws r1 with
              | ":"%char :: r2 =>
                  match value fuel (skip_ws r2) with
                  | Some (v, r3) =>
                      let acc := Dict.set k v acc in
                      match skip_ws r3 with
                      | "}"%char :: rest => Some (acc, rest)
                      | ","%char :: r4 => members fuel (skip_ws r4) acc
                      | _ => None
                      end
                  | None => None
                  end
              | _ => None
              end
          | None => None
          end
      | _ => None
      end
  end.

Definition loads (s : string) : option json :=
  let l := skip_ws (list_ascii_of_string s) in
  match value (S (List.length l)) l with
  | Some (v, rest) =>
      match skip_ws rest with
      | [] => Some v
      | _ => None
      end
  | None => None
  end.

End Decoder.

(** A server that answers each request by a fixed function of it. *)
Definition serve (f : request -> response) (r : request) (w : unit)
  : option response * unit := (Some (f r), w).

(** A response whose body is [text], read by [Decoder.loads]. *)
Definition respond (status : Z) (reason text : string) : response :=
  Response status reason text (Decoder.loads text).



(* ================================================================== *)
(** ** Vocabulary of the statements *)

(** [endpoints[args.endpoint]] when the endpoint is in the catalog. *)
Definition known_methods (args : Args) (endpoints : catalog)
  : option methods :=
  match arg_endpoint args with
  | Some e => Dict.get e endpoints
  | None => None
  end.

(** The namespace [a] with other [--server] and [--api] values. *)
Definition with_config (a : Args) (server api : string) : Args :=
  MkArgs server api (arg_user a) (arg_patch a) (arg_delete a) (arg_list a)
         (arg_verbose a) (arg_endpoint a) (arg_data a).

(** The methods for which a body is built. *)
Definition body_method (http_method : string) : Prop :=
  http_method = "POST" \/ http_method = "PATCH".

(** The float [f] is the integer [n]. *)
Definition float_is (f : Float.float) (n : Z) : Prop :=
  match f with
  | S754_zero _ => n = 0
  | S754_finite s m e =>
      let a := if s then - Zpos m else Zpos m in
      if 0 <=? e then n = a * 2 ^ e else n * 2 ^ (- e) = a
  | _ => False
  end.

(** Every endpoint of the catalog lists a method. *)
Definition methods_listed (endpoints : catalog) : Prop :=
  forall e ms, Dict.get e endpoints = Some ms -> ms <> [].

(** The two lines printed after a failed request to [url]. *)
Definition failure_report (url : string) (r : response) : list event :=
  [Out (failure_line r); Out [Lit url]].

(** The value [fetch_api_doc] returns on a 200 response. *)
Definition catalog_of (self : API) (r : response) : outcome catalog :=
  match json_body r with
  | Some api_doc => build_catalog self api_doc
  | None => Raise JSONDecodeError
  end.

(** The diagnostics of [fetch_api_doc] on a 200 response. *)
Definition doc_diagnostics (self : API) (verbose print_data : bool)
    (r : response) : list event :=
  ((if verbose then [Out (status_line "GET" (doc_url self) r)] else [])
   ++
   (if print_data && negb (String.eqb (Str.strip (text r)) EmptyString)
    then [Out [match json_body r with
               | Some data => Dumps (Loaded data)
               | None => Lit (text r)
               end]]
    else []))%list.

(** The value [authenticate] returns on a 200 response. *)
Definition token_of (r : response) : outcome json :=
  match json_body r with
  | Some body => py_get body "accessToken" JNull
  | None => Raise JSONDecodeError
  end.

(** The line that shows the result of a successful request, if any. *)
Definition result_lines (parsed_data : json) : list event :=
  if truthy parsed_data then
    [Out [if is_dict parsed_data then Dumps (Loaded parsed_data)
          else Str parsed_data]]
  else [].

(** What [make_request] prints before sending. *)
Definition body_echo (http_method : string) (verbose : bool)
    (post_data : option payload) : list event :=
  if verbose &&
     (String.eqb http_method "POST" || String.eqb http_method "PATCH")
  then match post_data with
       | Some p => [Out [Dumps p]]
       | None => []
       end
  else [].

(** What [make_request] prints once the response is there. *)
Definition response_lines (url http_method : string) (verbose : bool)
    (r : response) : list event :=
  if ok r then
    ((if verbose then [Out (status_line http_method url r)] else [])
     ++ result_lines (parse_response r))%list
  else failure_report url r.

(** The requests of a log, in order. *)
Fixpoint requests_of (l : list event) : list request :=
  match l with
  | Http r _ :: rest => r :: requests_of rest
  | _ :: rest => requests_of rest
  | [] => []
  end.

(** A path that [fetch_api_doc] keeps, and the name it gets. *)
Definition retained (self : API) (paths : list (string * json))
    (name : string) : Prop :=
  exists path ops,
    In (path, ops) paths /\
    Str.startswith path (api self) = true /\
    Str.endswith path "-info" = false /\
    name = endpoint_name self path.

(** A computation that only prints: it leaves the outside as it is and
    adds printed lines to the log. *)
Definition quiet {World A} (c : M World A) : Prop :=
  forall s, exists r lines,
    c s = (r, State (world s) (log s ++ map Out lines)).

(** The printed lines of a log, in order. *)
Fixpoint printed_of (l : list event) : list (list frag) :=
  match l with
  | Out line :: rest => line :: printed_of rest
  | _ :: rest => printed_of rest
  | [] => []
  end.

(** The first part of [main] when an endpoint is called: the catalog,
    the method and the body. *)
Definition prepare {World} (http : request -> World -> option response * World)
    (json_loads : string -> option json) (self : API) (args : Args)
  : M World (string * option payload) :=
  bind (fetch_api_doc http self (arg_verbose args) false) (fun endpoints =>
  bind (lift (determine_http_method args endpoints)) (fun http_method =>
  bind (process_post_data json_loads http_method args endpoints)
    (fun post_data => ret (http_method, post_data)))).

(** The second part: the token, and the request when there is one. *)
Definition finish {World} (http : request -> World -> option response * World)
    (self : API) (args : Args) (http_method : string)
    (post_data : option payload) : M World unit :=
  bind (authenticate http self (arg_user args) (arg_verbose args))
    (fun token =>
       when (truthy token)
         (make_request http self token (endpoint_text args) http_method
            (arg_verbose args) post_data)).

(** The namespace asks for a request to an endpoint: no [--list], an
    endpoint, and not both [--delete] and [--patch]. *)
Definition calls_endpoint (args : Args) : Prop :=
  arg_list args = false /\
  nonempty (arg_endpoint args) = true /\
  arg_delete args && arg_patch args = false.

(* ================================================================== *)
(** ** The earlier script

    [main.py] is the client before it became a package: [--patch] and
    [--delete] do not exist, the method is resolved and the body built in
    [main] itself, and some details differ.  Its functions are embedded
    under the same names in [Legacy]; the namespace is an [Args] whose
    [arg_patch] and [arg_delete] are not read. *)

(** [v[key]] for decoded values. *)
Definition py_index (v key : json) : outcome json :=
  let at_position {A} (l : list A) (i : Z) : option A :=
    let n := Z.of_nat (List.length l) in
    if (0 <=? i) && (i <? n) then nth_error l (Z.to_nat i)
    else if (- n <=? i) && (i <? 0) then nth_error l (Z.to_nat (n + i))
    else None in
  let position (key : json) : option Z :=
    match key with
    | JInt i => Some i
    | JBool b => Some (if b then 1 else 0)
    | _ => None
    end in
  match v with
  | JObj d =>
      match key with
      | JStr k =>
          match Dict.get k d with
          | Some x => Ok x
          | None => Raise KeyError
          end
      | JArr _ | JObj _ => Raise TypeError
      | _ => Raise KeyError
      end
  | JArr l =>
      match position key with
      | Some i =>
          match at_position l i with
          | Some x => Ok x
          | None => Raise IndexError
          end
      | None => Raise TypeError
      end
  | JStr s =>
      match position key with
      | Some i =>
          match at_position (list_ascii_of_string s) i with
          | Some c => Ok (JStr (String c EmptyString))
          | None => Raise IndexError
          end
      | None => Raise TypeError
      end
  | _ => Raise TypeError
  end.

Module Legacy.

(** [endpoint = path[len(self.api):]], then [endpoint[1:]] when it
    starts with "/". *)
Definition endpoint_name (self : API) (path : string) : string :=
  let endpoint := Str.slice_from (String.length (api self)) path in
  if Str.startswith endpoint "/" then Str.slice_from 1 endpoint
  else endpoint.

(** The body of the inner loop of [fetch_api_doc]. *)
Definition describe (endpoint method_upper : string) (details : json)
  : outcome descriptor :=
  match details with
  | JObj d =>
      let description := Dict.get_default "description" (JStr endpoint) d in
      if String.eqb method_upper "POST" && Dict.mem "requestBody" d then
        let req_body := Dict.get_default "requestBody" (JObj []) d in
        obind (py_get req_body "description" (JStr "no description"))
          (fun data =>
        obind (py_get req_body "content" (JObj []))
          (fun content =>
        obind (schema_of_content content)
          (fun schema =>
        Ok (Descriptor description data schema))))
      else Ok (Descriptor description JNull JNull)
  | _ => Raise AttributeError
  end.

Fixpoint add_methods (endpoint : string) (ops : list (string * json))
    (ms : methods) : outcome methods :=
  match ops with
  | (method, details) :: rest =>
      let method_upper := Str.upper method in
      obind (describe endpoint method_upper details)
        (fun d => add_methods endpoint rest (Dict.set method_upper d ms))
  | [] => Ok ms
  end.

Fixpoint add_paths (self : API) (paths : list (string * json))
    (endpoints : catalog) : outcome catalog :=
  match paths with
  | (path, ops) :: rest =>
      if negb (Str.startswith path (api self)) then
        add_paths self rest endpoints
      else if Str.endswith path "-info" then
        add_paths self rest endpoints
      else
        let endpoint := endpoint_name self path in
        let endpoints :=
          if negb (Dict.mem endpoint endpoints)
          then Dict.set endpoint [] endpoints else endpoints in
        match ops with
        | JObj ops =>
            obind (add_methods endpoint ops
                     (Dict.get_default endpoint [] endpoints))
              (fun ms => add_paths self rest (Dict.set endpoint ms endpoints))
        | _ => Raise AttributeError
        end
  | [] => Ok endpoints
  end.

Definition build_catalog (self : API) (api_doc : json) : outcome catalog :=
  obind (py_get api_doc "paths" (JObj []))
    (fun paths =>
       match paths with
       | JObj ps => add_paths self ps []
       | _ => Raise AttributeError
       end).

(** [http_method] as [main] sets it. *)
Definition http_method_of (args : Args) (endpoints : catalog)
  : outcome string :=
  match arg_data args with
  | Some _ => Ok "POST"
  | None =>
      match known_methods args endpoints with
      | Some methods =>
          if Dict.mem "GET" methods then Ok "GET"
          else
            match Dict.keys methods with
            | m :: _ => Ok m
            | [] => Raise IndexError
            end
      | None => Ok "GET"
      end
  end.

(** How the block that builds [post_data] ends: [main] returns, or goes
    on to authenticate. *)
Inductive step : Type :=
| Return
| Continue (post_data : option payload).

(** [endpoints[args.endpoint]["POST"].get("schema")]; [None] stands for
    the [KeyError]. *)
Definition post_schema (args : Args) (endpoints : catalog) : option json :=
  match known_methods args endpoints with
  | Some methods =>
      match Dict.get "POST" methods with
      | Some d => Some (schema d)
      | None => None
      end
  | None => None
  end.

(** The statements under [if schema and schema.get("type") == "object"],
    with [loaded] as they leave it. *)
Definition wrap_required (schema loaded : json) : outcome payload :=
  if negb (truthy schema) then Ok (Loaded loaded)
  else
    obind (py_get schema "type" JNull) (fun type =>
    if negb (is_str type "object") then Ok (Loaded loaded)
    else
      obind (py_get schema "properties" (JObj [])) (fun properties =>
      obind (py_get schema "required" (JArr [])) (fun required =>
      obind (py_len required) (fun n =>
      if negb (Nat.eqb n 1) then Ok (Loaded loaded)
      else
        obind (py_first required) (fun key =>
        obind (py_index properties key) (fun property =>
        obind (py_index property (JStr "type")) (fun ptype =>
        let loaded :=
          if is_str ptype "number" then coerce_number loaded else loaded in
        wrap key loaded))))))).

Section Client.

Variable World : Type.
Variable http : request -> World -> option response * World.
Variable json_loads : string -> option json.

Notation "x <- c ;; k" := (bind (World := World) c (fun x => k))
  (at level 61, c at next level, right associativity).
Notation "c ;; k" := (bind (World := World) c (fun _ => k))
  (at level 61, right associativity).

Definition authenticate (self : API) (username : string) : M World json :=
  let auth_url := auth_url self username in
  response <- send http (auth_request self username) ;;
  if negb (status_code response =? 200) then
    print (failure_line response) ;;
    print [Lit auth_url] ;;
    ret JNull
  else
    body <- response_json response ;;
    lift (py_get body "accessToken" JNull).

Definition fetch_api_doc (self : API) (verbose : bool) : M World catalog :=
  let doc_url := doc_url self in
  response <- send http (doc_request self) ;;
  when verbose
    (print (status_line "GET" doc_url response) ;;
     when ((status_code response =? 200) &&
           negb (String.eqb (Str.strip (text response)) EmptyString))
       match json_body response with
       | Some data => print [Dumps (Loaded data)]
       | None => print [Lit (text response)]
       end) ;;
  if negb (status_code response =? 200) then
    print (failure_line response) ;;
    print [Lit doc_url] ;;
    ret []
  else
    api_doc <- response_json response ;;
    lift (build_catalog self api_doc).

(** [print(json.dumps(parsed_data, indent=2))] for a dict, else
    [print(parsed_data)]. *)
Definition show (parsed_data : json) : M World unit :=
  if is_dict parsed_data
  then print [Dumps (Loaded parsed_data)]
  else print [Str parsed_data].

Definition make_request (self : API) (token : json) (endpoint : string)
    (http_method : string) (verbose : bool) (post_data : option payload)
  : M World unit :=
  let url := request_url self endpoint in
  when verbose
    (if String.eqb http_method "POST"
     then match post_data with
          | Some p => print [Dumps p]
          | None => ret tt
          end
     else ret tt) ;;
  response <- send http
                (main_request self token endpoint http_method post_data) ;;
  if negb (ok response) then
    print (failure_line response) ;;
    print [Lit url]
  else
    let parsed_data := parse_response response in
    if verbose then
      print (status_line http_method url response) ;;
      when (truthy parsed_data) (show parsed_data)
    else
      when ((status_code response =? 200) && truthy parsed_data)
        (show parsed_data).

(** One round of the inner loop of the listing. *)
Definition method_text (count : nat) (method : string) (details : descriptor)
  : list frag :=
  (if Nat.eqb count 1
   then [Lit ": "; Str (description details)]
   else [Lit (String "010" "    " ++ method ++ ": ");
         Str (description details)])
  ++
  (if String.eqb method "POST" && truthy (data_info details)
   then [Lit " (data: "; Str (data_info details); Lit ")"]
   else []).

Fixpoint print_lines (endpoints : catalog) : M World unit :=
  match endpoints with
  | (ep, ms) :: rest =>
      print (Lit ("  " ++ ep)
             :: flat_map (fun '(method, details) =>
                            method_text (List.length ms) method details) ms) ;;
      print_lines rest
  | [] => ret tt
  end.

(** The block under [if http_method == "POST" and args.data is not None]. *)
Definition build_post_data (http_method : string) (args : Args)
    (endpoints : catalog) : M World step :=
  match arg_data args with
  | Some data =>
      if String.eqb http_method "POST" then
        let loaded := loads_or_text json_loads data in
        if negb (is_dict loaded) then
          match post_schema args endpoints with
          | None =>
              print [Lit ("No POST data schema for " ++ endpoint_text args)] ;;
              ret Return
          | Some schema =>
              post_data <- lift (wrap_required schema loaded) ;;
              ret (Continue (Some post_data))
          end
        else ret (Continue (Some (Loaded loaded)))
      else ret (Continue None)
  | None => ret (Continue None)
  end.

Definition main (args : Args) : M World unit :=
  let api := API_init (arg_server args) (arg_api args) in
  if arg_list args then
    endpoints <- fetch_api_doc api (arg_verbose args) ;;
    match endpoints with
    | [] => print [Lit "No endpoints found!"]
    | _ => print [Lit "Available API endpoints:"] ;; print_lines endpoints
    end
  else if negb (nonempty (arg_endpoint args)) then
    emit Help
  else
    endpoints <- fetch_api_doc api false ;;
    http_method <- lift (http_method_of args endpoints) ;;
    built <- build_post_data http_method args endpoints ;;
    match built with
    | Return => ret tt
    | Continue post_data =>
        token <- authenticate api (arg_user args) ;;
        when (truthy token)
          (make_request api token (endpoint_text args) http_method
             (arg_verbose args) post_data)
    end.

Definition run (args : Args) (w : World) : outcome unit * state World :=
  main args (State w []).

End Client.

Arguments authenticate {World} http self username s.
Arguments fetch_api_doc {World} http self verbose s.
Arguments show {World} parsed_data s.
Arguments make_request {World} http self token endpoint http_method
  verbose post_data s.
Arguments print_lines {World} endpoints s.
Arguments build_post_data {World} json_loads http_method args endpoints s.
Arguments main {World} http json_loads args s.
Arguments run {World} http json_loads args w.

End Legacy.

(* ================================================================== *)
(** ** More vocabulary *)

(** The values for which [bool(v)] is false. *)
Definition falsy (v : json) : Prop :=
  v = JNull \/ v = JBool false \/ v = JInt 0 \/
  (exists sign, v = JFloat (S754_zero sign)) \/
  v = JStr EmptyString \/ v = JArr [] \/ v = JObj [].

(** [l] is the beginning of [l']. *)
Definition begins {A} (l l' : list A) : Prop :=
  exists rest, l' = (l ++ rest)%list.

(** The path is skipped by the loop of [fetch_api_doc]. *)
Definition skipped (self : API) (path : string) : Prop :=
  Str.startswith path (api self) = false \/ Str.endswith path "-info" = true.

(** The entries of a catalog: endpoint, method, descriptor. *)
Definition listed (endpoints : catalog) (e m : string) (d : descriptor)
  : Prop :=
  exists ms, In (e, ms) endpoints /\ In (m, d) ms.

(** The answer to the discovery GET cannot be read as a document, and
    the exception that [fetch_api_doc] meets on it: a body that is not
    JSON, a JSON value that is not an object, or a ["paths"] member that
    is not an object. *)
Definition unreadable_doc (x : response) (e : exn) : Prop :=
  (json_body x = None /\ e = JSONDecodeError) \/
  (exists v, json_body x = Some v /\ is_dict v = false /\
             e = AttributeError) \/
  (exists d p, json_body x = Some (JObj d) /\
               Dict.get "paths" d = Some p /\ is_dict p = false /\
               e = AttributeError).

(** The catalog is a dict of dicts: no key occurs twice. *)
Definition well_keyed (endpoints : catalog) : Prop :=
  NoDup (Dict.keys endpoints) /\
  forall e ms, In (e, ms) endpoints -> NoDup (Dict.keys ms).

(* ================================================================== *)
(** ** A player to talk to

    A document in the shape of the one the player serves, and servers
    that answer the three requests of the client. *)

(** JSON texts are written with ' for the double quote. *)
Fixpoint json_text (s : string) : string :=
  match s with
  | String c r =>
      String (if Ascii.eqb c "'" then "034"%char else c) (json_text r)
  | EmptyString => EmptyString
  end.

Definition player_doc : string :=
  json_text
    ("{'paths': {" ++
     "'/api/v1/play': {'post': {'description': 'Play'}}, " ++
     "'/api/v1/volume': {'post': {'description': 'Set volume', " ++
       "'requestBody': {'description': 'volume level', 'content': " ++
       "{'application/json': {'schema': {'type': 'object', " ++
       "'required': ['volume'], " ++
       "'properties': {'volume': {'type': 'number'}}}}}}}}, " ++
     "'/api/v1/seek-to': {'post': {'description': 'Seek', " ++
       "'requestBody': {'description': 'position', 'content': " ++
       "{'application/json': {'schema': {'type': 'object', " ++
       "'required': ['seconds', 'relative'], " ++
       "'properties': {'seconds': {'type': 'number'}, " ++
       "'relative': {'type': 'boolean'}}}}}}}}, " ++
     "'/api/v1/queue': {}, " ++
     "'/api/v1/song-info': {'get': {'description': 'Song'}}, " ++
     "'/internal/status': {'get': {'description': 'Status'}}" ++
     "}}").

Definition local_server : string := "http://localhost:26538".
Definition local_user : string := "youtube-music-control".

(** The client of the default configuration. *)
Definition local_api : API := API_init local_server "/api/v1".

(** [youtube-music-control endpoint [data]] *)
Definition call (endpoint : string) (data : option string) : Args :=
  MkArgs local_server "/api/v1" local_user false false false false
         (Some endpoint) data.

(** A player that answers the discovery GET by [doc], the
    authentication POST by [auth] and any other request by [other]. *)
Definition player (doc auth other : response) (r : request) : response :=
  if String.eqb (req_url r) (doc_url local_api) then doc
  else if String.eqb (req_url r) (auth_url local_api local_user) then auth
  else other.

Definition doc_ok : response := respond 200 "OK" player_doc.
Definition doc_down : response :=
  respond 500 "Internal Server Error" EmptyString.
Definition auth_ok : response :=
  respond 200 "OK" (json_text "{'accessToken': 'secret'}").
Definition auth_denied : response := respond 401 "Unauthorized" EmptyString.
Definition no_content : response := respond 204 "No Content" EmptyString.
Definition queue_content : response := respond 200 "OK" "[1, 2]".

(** A run of the client against such a player. *)
Definition play (doc auth other : response) (args : Args)
  : outcome unit * state unit :=
  run (serve (player doc auth other)) Decoder.loads args tt.

(** The catalog read from [player_doc]. *)
Definition player_catalog : catalog :=
  match catalog_of local_api doc_ok with
  | Ok endpoints => endpoints
  | Raise _ => []
  end.

(** The schema of the body of [POST volume]. *)
Definition volume_schema : list (string * json) :=
  [("type", JStr "object");
   ("required", JArr [JStr "volume"]);
   ("properties", JObj [("volume", JObj [("type", JStr "number")])])].

Definition volume_properties : list (string * json) :=
  [("volume", JObj [("type", JStr "number")])].

(** A catalog whose endpoint [stream] lists PATCH and POST, in that
    order, and no GET. *)
Definition stream_catalog : catalog :=
  [("stream", [("PATCH", Descriptor (JStr "Patch") JNull JNull);
               ("POST", Descriptor (JStr "Post") JNull JNull)])].

Definition volume_reply : response :=
  respond 200 "OK" (json_text "{'volume': 75}").

(** *** More answers and catalogs *)

Definition not_found : response := respond 404 "Not Found" "no such endpoint".
Definition zero_content : response := respond 200 "OK" "0".
Definition created : response :=
  respond 201 "Created" (json_text "{'id': 1}").
Definition auth_empty : response := respond 200 "OK" "{}".
Definition auth_page : response := respond 200 "OK" "<html></html>".
Definition doc_page : response := respond 200 "OK" "<html></html>".

(** The decoded document of the player. *)
Definition player_api_doc : json :=
  match json_body doc_ok with
  | Some api_doc => api_doc
  | None => JNull
  end.

(** A document with nothing under the prefix but an "-info" path; the
    operations of its paths are not even objects. *)
Definition foreign_paths : list (string * json) :=
  [("/internal/status", JInt 3); ("/api/v1/song-info", JNull)].

(** A document that describes a request body under GET. *)
Definition like_doc : json :=
  JObj [("paths",
         JObj [("/api/v1/like",
                JObj [("get",
                       JObj [("description", JStr "Like");
                             ("requestBody",
                              JObj [("description", JStr "ignored")])])])])].

Definition like_descriptor : descriptor :=
  Descriptor (JStr "Like") JNull JNull.

(** A document whose two paths give the same endpoint, and that spells
    one operation in two ways. *)
Definition twice_doc : json :=
  JObj [("paths",
         JObj [("/api/v1/next", JObj [("post", JObj []); ("POST", JObj [])]);
               ("/api/v1//next", JObj [("get", JObj [])])])].

(** Catalogs with one POST endpoint [seek] under various schemas. *)
Definition seek_catalog (schema : json) : catalog :=
  [("seek", [("POST", Descriptor (JStr "Seek") (JStr "seconds") schema)])].

Definition name_schema : list (string * json) :=
  [("type", JStr "object");
   ("required", JArr [JStr "name"]);
   ("properties", JObj [("name", JObj [("type", JStr "string")])])].

Definition level_schema : list (string * json) :=
  [("type", JStr "object");
   ("required", JArr [JStr "level"]);
   ("properties", JObj [])].

Definition pair_schema : list (string * json) :=
  [("type", JStr "object");
   ("required", JArr [JStr "seconds"; JStr "relative"])].

(** [youtube-music-control --delete --patch play] *)
Definition both_flags : Args :=
  MkArgs local_server "/api/v1" local_user true true false false
         (Some "play") None.

(** [youtube-music-control --list play 5] *)
Definition list_call : Args :=
  MkArgs local_server "/api/v1" local_user false false true false
         (Some "play") (Some "5").

(** [youtube-music-control --delete play 5] *)
Definition delete_call : Args :=
  MkArgs local_server "/api/v1" local_user false true false false
         (Some "play") (Some "5").

(** A run of the earlier script against a player. *)
Definition legacy_play (doc auth other : response) (args : Args)
  : outcome unit * state unit :=
  Legacy.run (serve (player doc auth other)) Decoder.loads args tt.

(* ================================================================== *)
(** ** The operations on some inputs *)

Example rstrip_server :
  Str.rstrip "/" "http://localhost:26538//" = local_server.
Proof. reflexivity. Qed.

Example rstrip_inner : Str.rstrip "/" "/api//v1/" = "/api//v1".
Proof. reflexivity. Qed.

Example endswith_info : Str.endswith "/api/v1/song-info" "-info" = true.
Proof. reflexivity. Qed.

Example endswith_short : Str.endswith "nfo" "-info" = false.
Proof. reflexivity. Qed.

Example endpoint_name_slashes :
  endpoint_name local_api "/api/v1//queue/1" = "queue/1".
Proof. reflexivity. Qed.

Example upper_method : Str.upper "patch" = "PATCH".
Proof. reflexivity. Qed.

Example strip_blanks :
  Str.strip (String "009" " ok " ++ String "010" EmptyString) = "ok".
Proof. reflexivity. Qed.

Example float_of_75 :
  Float.of_str "75" = Some (S754_finite false 5277655813324800 (-46)).
Proof. vm_compute. reflexivity. Qed.

Example float_of_tenth :
  Float.of_str " 1_0e-2 " = Some (S754_finite false 7205759403792794 (-56)).
Proof. vm_compute. reflexivity. Qed.

Example float_of_word : Float.of_str "loud" = None.
Proof. reflexivity. Qed.

Example float_of_huge : Float.of_Z (10 ^ 400) = None.
Proof. vm_compute. reflexivity. Qed.

Example float_of_true : py_float (JBool true) = Float.of_str "1.0".
Proof. vm_compute. reflexivity. Qed.

Example coerce_text :
  coerce_number (JStr "7.50")
  = JFloat (S754_finite false 8444249301319680 (-50)).
Proof. vm_compute. reflexivity. Qed.

Example coerce_float : coerce_number (JStr "1e3") = JInt 1000.
Proof. vm_compute. reflexivity. Qed.

Example coerce_null : coerce_number JNull = JNull.
Proof. reflexivity. Qed.

Example loads_number : Decoder.loads " 75 " = Some (JInt 75).
Proof. vm_compute. reflexivity. Qed.

Example loads_object :
  Decoder.loads (json_text "{'a': [1, true, null], 'b': 'x', 'a': {}}")
  = Some (JObj [("a", JObj []); ("b", JStr "x")]).
Proof. vm_compute. reflexivity. Qed.

Example loads_word : Decoder.loads "loud" = None.
Proof. reflexivity. Qed.

Example dict_set_keeps_place :
  Dict.set "a" 3 [("a", 1); ("b", 2)] = [("a", 3); ("b", 2)].
Proof. reflexivity. Qed.

(* ================================================================== *)
(** ** Properties of the string and dict operations *)

Lemma rstrip_repeat (c : ascii) (n : nat) :
  Str.rstrip c (Str.repeat c n) = EmptyString.
Proof.
  induction n as [|n IH]; simpl; [reflexivity|].
  rewrite IH, Ascii.eqb_refl. reflexivity.
Qed.

Lemma rstrip_app_repeat (c : ascii) (s : string) (n : nat) :
  Str.rstrip c (s ++ Str.repeat c n) = Str.rstrip c s.
Proof.
  induction s as [|a r IH]; simpl.
  - apply rstrip_repeat.
  - rewrite IH. reflexivity.
Qed.

Lemma rstrip_idempotent (c : ascii) (s : string) :
  Str.rstrip c (Str.rstrip c s) = Str.rstrip c s.
Proof.
  induction s as [|a r IH]; simpl; [reflexivity|].
  destruct (Str.rstrip c r) as [|b t] eqn:E.
  - destruct (Ascii.eqb a c) eqn:Eac; simpl; [reflexivity|].
    rewrite Eac. reflexivity.
  - change (Str.rstrip c (String a (String b t)))
      with (match Str.rstrip c (String b t) with
            | EmptyString =>
                if Ascii.eqb a c then EmptyString else String a EmptyString
            | r' => String a r'
            end).
    rewrite IH. reflexivity.
Qed.

(** [rstrip] removes a run of the character at the end, and nothing else. *)
Lemma rstrip_decompose (c : ascii) (s : string) :
  exists n, s = Str.rstrip c s ++ Str.repeat c n.
Proof.
  induction s as [|a r [n IH]]; simpl.
  - exists O. reflexivity.
  - destruct (Str.rstrip c r) as [|b t] eqn:E.
    + destruct (Ascii.eqb_spec a c) as [->|Hac].
      * exists (S n). simpl. simpl in IH. rewrite <- IH. reflexivity.
      * exists n. simpl. simpl in IH. rewrite <- IH. reflexivity.
    + exists n. simpl. simpl in IH. rewrite <- IH. reflexivity.
Qed.

Lemma rstrip_no_trailing (c : ascii) (s t : string) :
  Str.rstrip c s <> t ++ String c EmptyString.
Proof.
  revert t. induction s as [|a r IH]; intros t; simpl.
  - destruct t; discriminate.
  - destruct (Str.rstrip c r) as [|b u] eqn:E.
    + destruct (Ascii.eqb_spec a c) as [->|Hac].
      * destruct t; discriminate.
      * destruct t as [|x t]; simpl; [congruence|].
        destruct t; discriminate.
    + destruct t as [|x t]; simpl; [discriminate|].
      intros H. injection H as _ H. exact (IH t H).
Qed.

Lemma prefix_split (p s : string) :
  String.prefix p s = true ->
  s = p ++ Str.slice_from (String.length p) s.
Proof.
  revert s. induction p as [|a p IH]; intros s H.
  - reflexivity.
  - destruct s as [|b s]; simpl in H; [discriminate|].
    destruct (Ascii.ascii_dec a b) as [->|]; [|discriminate].
    simpl. f_equal. apply IH, H.
Qed.

Lemma lstrip_decompose (c : ascii) (s : string) :
  exists n, s = Str.repeat c n ++ Str.lstrip c s.
Proof.
  induction s as [|a r [n IH]]; simpl.
  - exists O. reflexivity.
  - destruct (Ascii.eqb_spec a c) as [->|Hac].
    + exists (S n). simpl. rewrite <- IH. reflexivity.
    + exists O. reflexivity.
Qed.

Lemma lstrip_no_leading (c : ascii) (s t : string) :
  Str.lstrip c s <> String c t.
Proof.
  induction s as [|a r IH]; simpl; [discriminate|].
  destruct (Ascii.eqb_spec a c) as [->|Hac]; [exact IH|congruence].
Qed.

Section DictFacts.
Context {V : Type}.

Lemma keys_set (k : string) (v : V) (d : Dict.t V) :
  Dict.keys (Dict.set k v d) =
  if Dict.mem k d then Dict.keys d else (Dict.keys d ++ [k])%list.
Proof.
  unfold Dict.mem.
  induction d as [|[k' v'] r IH]; simpl; [reflexivity|].
  destruct (String.eqb_spec k' k) as [->|Hk]; simpl; [reflexivity|].
  rewrite IH. destruct (Dict.get k r); reflexivity.
Qed.

Lemma in_keys_set (x k : string) (v : V) (d : Dict.t V) :
  In x (Dict.keys (Dict.set k v d)) -> x = k \/ In x (Dict.keys d).
Proof.
  rewrite keys_set. destruct (Dict.mem k d); [now right|].
  rewrite in_app_iff. simpl. intuition.
Qed.

Lemma get_set_same (k : string) (v : V) (d : Dict.t V) :
  Dict.get k (Dict.set k v d) = Some v.
Proof.
  induction d as [|[k' v'] r IH]; simpl.
  - now rewrite String.eqb_refl.
  - destruct (String.eqb k' k) eqn:E; simpl; rewrite E; [reflexivity|exact IH].
Qed.

Lemma mem_keys (k : string) (d : Dict.t V) :
  Dict.mem k d = true <-> In k (Dict.keys d).
Proof.
  unfold Dict.mem.
  induction d as [|[k' v'] r IH]; simpl; [intuition discriminate|].
  destruct (String.eqb_spec k' k) as [->|Hk]; [intuition|].
  rewrite IH. intuition congruence.
Qed.

End DictFacts.

(* ================================================================== *)
(** ** HTTP method resolution *)

(** C2. The method is chosen by the first rule that applies: [--delete]
    gives DELETE; else [--patch] gives PATCH; else a data argument gives
    POST, whatever the catalog holds; else an endpoint that is not in the
    catalog gives GET; else GET when the endpoint lists it; else the
    first method of the endpoint in the iteration order of the catalog. *)
Theorem determine_http_method_priority (args : Args) (endpoints : catalog) :
  (arg_delete args = true ->
   determine_http_method args endpoints = Ok "DELETE") /\
  (arg_delete args = false -> arg_patch args = true ->
   determine_http_method args endpoints = Ok "PATCH") /\
  (arg_delete args = false -> arg_patch args = false ->
   arg_data args <> None ->
   determine_http_method args endpoints = Ok "POST") /\
  (arg_delete args = false -> arg_patch args = false ->
   arg_data args = None -> known_methods args endpoints = None ->
   determine_http_method args endpoints = Ok "GET") /\
  (forall ms,
   arg_delete args = false -> arg_patch args = false ->
   arg_data args = None -> known_methods args endpoints = Some ms ->
   Dict.mem "GET" ms = true ->
   determine_http_method args endpoints = Ok "GET") /\
  (forall ms m d rest,
   arg_delete args = false -> arg_patch args = false ->
   arg_data args = None -> known_methods args endpoints = Some ms ->
   Dict.mem "GET" ms = false -> ms = (m, d) :: rest ->
   determine_http_method args endpoints = Ok m).
Proof.
  unfold determine_http_method, known_methods.
  repeat split.
  - intros ->. reflexivity.
  - intros -> ->. reflexivity.
  - intros -> -> Hd. destruct (arg_data args); [reflexivity|congruence].
  - intros -> -> -> Hk. destruct (arg_endpoint args); [|reflexivity].
    rewrite Hk. reflexivity.
  - intros ms -> -> -> Hk Hg. destruct (arg_endpoint args); [|discriminate].
    rewrite Hk, Hg. reflexivity.
  - intros ms m d rest -> -> -> Hk Hg ->.
    destruct (arg_endpoint args); [|discriminate].
    rewrite Hk, Hg. reflexivity.
Qed.

(** Where the catalog lists a method for each endpoint, a method is
    always found. *)
Lemma determine_http_method_total (args : Args) (endpoints : catalog) :
  methods_listed endpoints ->
  exists m, determine_http_method args endpoints = Ok m.
Proof.
  intros Hl. unfold determine_http_method.
  destruct (arg_delete args); [eauto|].
  destruct (arg_patch args); [eauto|].
  destruct (arg_data args); [eauto|].
  destruct (arg_endpoint args) as [e|]; [|eauto].
  destruct (Dict.get e endpoints) as [ms|] eqn:He; [|eauto].
  destruct (Dict.mem "GET" ms); [eauto|].
  destruct ms as [|[m d] rest]; [|simpl; eauto].
  destruct (Hl e [] He eq_refl).
Qed.

(** An endpoint with an empty method map, called with no flag and no
    data, has no first method. *)
Lemma determine_http_method_empty_map (args : Args) (endpoints : catalog) :
  arg_delete args = false -> arg_patch args = false ->
  arg_data args = None -> known_methods args endpoints = Some [] ->
  determine_http_method args endpoints = Raise IndexError.
Proof.
  unfold determine_http_method, known_methods. intros -> -> -> Hk.
  destruct (arg_endpoint args); [|discriminate]. now rewrite Hk.
Qed.

(* ================================================================== *)
(** ** Floats that are integers *)

Lemma is_integer_to_Z (f : Float.float) :
  Float.is_integer f = true ->
  exists n, Float.to_Z f = Some n /\ float_is f n.
Proof.
  destruct f as [s| | |s m e]; simpl; try discriminate.
  - intros _. exists 0. split; reflexivity.
  - destruct (Z.leb_spec 0 e) as [He|He]; intros Hi.
    + exists (if s then - (Zpos m * 2 ^ e) else Zpos m * 2 ^ e).
      split; [reflexivity|]. destruct s; lia.
    + apply Z.eqb_eq in Hi.
      assert (Hp : 0 < 2 ^ (- e)) by (apply Z.pow_pos_nonneg; lia).
      assert (Hd : Zpos m = 2 ^ (- e) * (Zpos m / 2 ^ (- e))).
      { apply Z.div_exact; [lia|exact Hi]. }
      exists (if s then - (Zpos m / 2 ^ (- e)) else Zpos m / 2 ^ (- e)).
      split; [reflexivity|]. destruct s; lia.
Qed.

(* ================================================================== *)
(** ** The catalog built from a discovery document *)

Lemma slice_from_app (t p : string) :
  Str.slice_from (String.length t) (t ++ p) = p.
Proof. induction t as [|a t IH]; simpl; [reflexivity|exact IH]. Qed.

Lemma length_app (t p : string) :
  String.length (t ++ p) = (String.length t + String.length p)%nat.
Proof. induction t as [|a t IH]; simpl; [reflexivity|now rewrite IH]. Qed.

Lemma endswith_app (t p : string) : Str.endswith (t ++ p) p = true.
Proof.
  unfold Str.endswith. rewrite length_app.
  replace (String.length t + String.length p - String.length p)%nat
    with (String.length t) by lia.
  rewrite slice_from_app, String.eqb_refl, andb_true_r.
  apply Nat.leb_le. lia.
Qed.

Lemma endswith_false (s p : string) :
  Str.endswith s p = false -> forall t, s <> t ++ p.
Proof.
  intros H t ->. rewrite endswith_app in H. discriminate.
Qed.

(** The name of a path under the prefix: the prefix goes, then every
    leading "/". *)
Lemma endpoint_name_spec (self : API) (path : string) :
  Str.startswith path (api self) = true ->
  exists k,
    path = api self ++ Str.repeat "/" k ++ endpoint_name self path /\
    forall t, endpoint_name self path <> String "/" t.
Proof.
  intros H. unfold endpoint_name.
  destruct (lstrip_decompose "/"
              (Str.slice_from (String.length (api self)) path)) as [k Hk].
  exists k. split.
  - rewrite <- Hk. apply prefix_split, H.
  - intros t. apply lstrip_no_leading.
Qed.

Lemma add_paths_keys (self : API) (paths : list (string * json)) :
  forall start endpoints,
    add_paths self paths start = Ok endpoints ->
    forall name,
      In name (Dict.keys endpoints) ->
      In name (Dict.keys start) \/ retained self paths name.
Proof.
  induction paths as [|[path ops] rest IH]; intros start endpoints H name Hn.
  - simpl in H. injection H as <-. now left.
  - assert (Hrest : forall n, retained self rest n ->
                              retained self ((path, ops) :: rest) n).
    { intros n (p & o & Hin & Hrem). exists p, o.
      split; [now right|exact Hrem]. }
    simpl in H.
    destruct (Str.startswith path (api self)) eqn:Hp; simpl in H.
    2:{ destruct (IH _ _ H name Hn); auto. }
    destruct (Str.endswith path "-info") eqn:Hi.
    { destruct (IH _ _ H name Hn); auto. }
    destruct ops as [| | | | | |ops]; try discriminate.
    match type of H with
    | obind ?x _ = _ => destruct x as [ms|]; [|discriminate]
    end.
    simpl in H.
    destruct (IH _ _ H name Hn) as [Hk|Hk]; [|auto].
    assert (Hhere : retained self ((path, JObj ops) :: rest)
                             (endpoint_name self path)).
    { exists path, (JObj ops). repeat split; auto. now left. }
    apply in_keys_set in Hk. destruct Hk as [->|Hk]; [now right|].
    destruct (Dict.mem (endpoint_name self path) start); simpl in Hk.
    + now left.
    + apply in_keys_set in Hk. destruct Hk as [->|Hk]; [now right|now left].
Qed.

Lemma build_catalog_keys (self : API) (api_doc : json) (endpoints : catalog) :
  build_catalog self api_doc = Ok endpoints ->
  forall name,
    In name (Dict.keys endpoints) ->
    exists paths,
      py_get api_doc "paths" (JObj []) = Ok (JObj paths) /\
      retained self paths name.
Proof.
  unfold build_catalog. intros H name Hn.
  destruct (py_get api_doc "paths" (JObj [])) as [paths|]; [|discriminate].
  simpl in H. destruct paths as [| | | | | |paths]; try discriminate.
  exists paths. split; [reflexivity|].
  destruct (add_paths_keys _ _ _ _ H name Hn) as [[]|]; assumption.
Qed.

Lemma in_keys_set_intro {V} (x k : string) (v : V) (d : Dict.t V) :
  x = k \/ In x (Dict.keys d) -> In x (Dict.keys (Dict.set k v d)).
Proof.
  rewrite keys_set. destruct (Dict.mem k d) eqn:E.
  - intros [->|H]; [now apply mem_keys|exact H].
  - rewrite in_app_iff. simpl. intuition.
Qed.

Lemma add_paths_keeps (self : API) (paths : list (string * json)) :
  forall start endpoints,
    add_paths self paths start = Ok endpoints ->
    forall name, In name (Dict.keys start) -> In name (Dict.keys endpoints).
Proof.
  induction paths as [|[path ops] rest IH]; intros start endpoints H name Hn.
  - simpl in H. now injection H as <-.
  - simpl in H.
    destruct (Str.startswith path (api self)); simpl in H; [|eauto].
    destruct (Str.endswith path "-info"); [eauto|].
    destruct ops as [| | | | | |ops]; try discriminate.
    match type of H with
    | obind ?x _ = _ => destruct x as [ms|]; [|discriminate]
    end.
    simpl in H. apply (IH _ _ H).
    apply in_keys_set_intro. right.
    destruct (Dict.mem (endpoint_name self path) start); simpl; [exact Hn|].
    apply in_keys_set_intro. now right.
Qed.

(** Conversely, when the catalog is built, every retained path has its
    endpoint in it. *)
Lemma add_paths_lists (self : API) (paths : list (string * json)) :
  forall start endpoints,
    add_paths self paths start = Ok endpoints ->
    forall name, retained self paths name -> In name (Dict.keys endpoints).
Proof.
  induction paths as [|[path ops] rest IH];
    intros start endpoints H name (p & o & Hin & Hpre & Hinfo & ->).
  - destruct Hin.
  - simpl in H. destruct Hin as [E|Hin].
    + injection E as -> ->. rewrite Hpre, Hinfo in H. simpl in H.
      destruct o as [| | | | | |ops]; try discriminate.
      match type of H with
      | obind ?x _ = _ => destruct x as [ms|]; [|discriminate]
      end.
      simpl in H. apply (add_paths_keeps _ _ _ _ H).
      apply in_keys_set_intro. now left.
    + assert (Hr : retained self rest (endpoint_name self p))
        by (exists p, o; auto).
      destruct (Str.startswith path (api self)); simpl in H; [|eauto].
      destruct (Str.endswith path "-info"); [eauto|].
      destruct ops as [| | | | | |ops]; try discriminate.
      match type of H with
      | obind ?x _ = _ => destruct x as [ms|]; [|discriminate]
      end.
      simpl in H. eauto.
Qed.

(* ================================================================== *)
(** ** The requests recorded in a log *)

Lemma requests_of_app (l l' : list event) :
  requests_of (l ++ l') = (requests_of l ++ requests_of l')%list.
Proof.
  induction l as [|[]]; simpl; rewrite ?IHl; reflexivity.
Qed.

Lemma requests_of_out (lines : list (list frag)) :
  requests_of (map Out lines) = [].
Proof. induction lines; simpl; auto. Qed.

Lemma in_requests_of (r : request) (x : option response) (l : list event) :
  In (Http r x) l -> In r (requests_of l).
Proof.
  induction l as [|e l IH]; simpl; [trivial|].
  intros [->|H]; [now left|].
  destruct e; simpl; auto.
Qed.

Lemma requests_of_failure_report (url : string) (x : response) :
  requests_of (failure_report url x) = [].
Proof. reflexivity. Qed.

Lemma requests_of_doc_diagnostics (self : API) (verbose print_data : bool)
    (x : response) :
  requests_of (doc_diagnostics self verbose print_data x) = [].
Proof.
  unfold doc_diagnostics.
  destruct verbose,
    (print_data && negb (String.eqb (Str.strip (text x)) EmptyString));
    reflexivity.
Qed.

Lemma requests_of_body_echo (http_method : string) (verbose : bool)
    (post_data : option payload) :
  requests_of (body_echo http_method verbose post_data) = [].
Proof.
  unfold body_echo.
  destruct (verbose && _), post_data; reflexivity.
Qed.

Lemma requests_of_response_lines (url http_method : string) (verbose : bool)
    (x : response) :
  requests_of (response_lines url http_method verbose x) = [].
Proof.
  unfold response_lines, result_lines.
  destruct (ok x), verbose, (truthy (parse_response x)); reflexivity.
Qed.

Create Rewrite HintDb requests.

#[export] Hint Rewrite requests_of_app requests_of_out
  requests_of_failure_report requests_of_doc_diagnostics
  requests_of_body_echo requests_of_response_lines : requests.

(* ================================================================== *)
(** ** What each operation does to the state *)

Section Runs.

Variable World : Type.
Variable http : request -> World -> option response * World.
Variable json_loads : string -> option json.
Implicit Types (s : state World) (self : API).

Lemma send_run (r : request) s :
  send http r s =
  match http r (world s) with
  | (Some x, w) => (Ok x, State w (log s ++ [Http r (Some x)]))
  | (None, w) => (Raise RequestException, State w (log s ++ [Http r None]))
  end.
Proof.
  unfold send. destruct (http r (world s)) as [[x|] w]; reflexivity.
Qed.

Lemma authenticate_run self (username : string) (verbose : bool) s :
  authenticate http self username verbose s =
  let r := auth_request self username in
  match http r (world s) with
  | (Some x, w) =>
      if status_code x =? 200 then
        (token_of x,
         State w (log s ++ Http r (Some x) ::
                  if verbose
                  then [Out (status_line "POST" (auth_url self username) x)]
                  else []))
      else
        (Ok JNull,
         State w (log s ++ Http r (Some x) ::
                  failure_report (auth_url self username) x))
  | (None, w) => (Raise RequestException, State w (log s ++ [Http r None]))
  end.
Proof.
  unfold authenticate, bind. rewrite send_run. cbv zeta.
  destruct (http (auth_request self username) (world s)) as [[x|] w];
    [|reflexivity].
  destruct (status_code x =? 200); simpl.
  - unfold when, token_of, response_json, print, emit, ret, raise, lift.
    destruct verbose; simpl; destruct (json_body x); simpl;
      rewrite <- ?app_assoc; reflexivity.
  - unfold print, emit, ret, failure_report; simpl.
    rewrite <- !app_assoc. reflexivity.
Qed.

Lemma fetch_api_doc_run self (verbose print_data : bool) s :
  fetch_api_doc http self verbose print_data s =
  let r := doc_request self in
  match http r (world s) with
  | (Some x, w) =>
      if status_code x =? 200 then
        (catalog_of self x,
         State w (log s ++ Http r (Some x) ::
                  doc_diagnostics self verbose print_data x))
      else
        (Ok [], State w (log s ++ Http r (Some x) ::
                         failure_report (doc_url self) x))
  | (None, w) => (Raise RequestException, State w (log s ++ [Http r None]))
  end.
Proof.
  unfold fetch_api_doc, bind. rewrite send_run. cbv zeta.
  destruct (http (doc_request self) (world s)) as [[x|] w]; [|reflexivity].
  destruct (status_code x =? 200) eqn:E; simpl.
  - unfold when, catalog_of, doc_diagnostics, response_json, print, emit,
      ret, raise, lift.
    rewrite andb_true_r.
    destruct verbose, print_data; simpl;
      destruct (String.eqb (Str.strip (text x)) EmptyString); simpl;
      destruct (json_body x); simpl; rewrite <- ?app_assoc; reflexivity.
  - unfold print, emit, ret, failure_report; simpl.
    rewrite <- !app_assoc. reflexivity.
Qed.

Lemma make_request_run self (token : json) (endpoint http_method : string)
    (verbose : bool) (post_data : option payload) s :
  make_request http self token endpoint http_method verbose post_data s =
  let r := main_request self token endpoint http_method post_data in
  let echo := body_echo http_method verbose post_data in
  match http r (world s) with
  | (Some x, w) =>
      (Ok tt,
       State w (log s ++ echo ++ Http r (Some x) ::
                response_lines (request_url self endpoint) http_method
                               verbose x))
  | (None, w) =>
      (Raise RequestException, State w (log s ++ echo ++ [Http r None]))
  end.
Proof.
  unfold make_request, body_echo, response_lines, result_lines, bind, when.
  cbv zeta.
  destruct verbose; simpl;
    [destruct (String.eqb http_method "POST" || String.eqb http_method "PATCH");
     [destruct post_data|]|];
    unfold print, emit, ret; simpl; rewrite send_run; simpl;
    destruct (http _ _) as [[x|] w]; simpl;
    rewrite <- ?app_assoc, ?app_nil_r; try reflexivity;
    destruct (ok x); simpl;
    try destruct (truthy (parse_response x)); simpl;
    try destruct (is_dict (parse_response x)); simpl;
    unfold failure_report;
    rewrite <- ?app_assoc, ?app_nil_r; reflexivity.
Qed.

(** *** Computations that only print *)

Lemma quiet_ret {A} (a : A) : quiet (@ret World A a).
Proof.
  intros s. exists (Ok a), []. simpl. now rewrite app_nil_r; destruct s.
Qed.

Lemma quiet_raise {A} (e : exn) : quiet (@raise World A e).
Proof.
  intros s. exists (Raise e), []. simpl. now rewrite app_nil_r; destruct s.
Qed.

Lemma quiet_lift {A} (x : outcome A) : quiet (@lift World A x).
Proof.
  intros s. exists x, []. simpl. now rewrite app_nil_r; destruct s.
Qed.

Lemma quiet_print (line : list frag) : quiet (@print World line).
Proof. intros s. exists (Ok tt), [line]. reflexivity. Qed.

Lemma quiet_bind {A B} (c : M World A) (f : A -> M World B) :
  quiet c -> (forall a, quiet (f a)) -> quiet (bind c f).
Proof.
  intros Hc Hf s. unfold bind.
  destruct (Hc s) as (r & l1 & ->). destruct r as [a|e].
  - destruct (Hf a (State (world s) (log s ++ map Out l1))) as (r & l2 & ->).
    exists r, (l1 ++ l2)%list. simpl. now rewrite map_app, app_assoc.
  - now exists (Raise e), l1.
Qed.

Lemma quiet_when (b : bool) (c : M World unit) : quiet c -> quiet (when b c).
Proof. destruct b; [trivial|intros _; apply quiet_ret]. Qed.

Ltac quiet_step :=
  first
    [ apply quiet_ret | apply quiet_raise | apply quiet_lift
    | apply quiet_print | apply quiet_when
    | apply quiet_bind; [|intros ?]
    | match goal with
      | |- quiet (match ?x with _ => _ end) => destruct x
      end ].

Lemma quiet_print_lines (endpoints : catalog) :
  quiet (@print_lines World endpoints).
Proof.
  induction endpoints as [|[endpoint ms] rest IH]; simpl.
  - apply quiet_ret.
  - apply quiet_bind; [apply quiet_print|intros _; exact IH].
Qed.

Lemma quiet_display_endpoints (endpoints : catalog) :
  quiet (@display_endpoints World endpoints).
Proof.
  unfold display_endpoints. destruct endpoints.
  - apply quiet_print.
  - apply quiet_bind; [apply quiet_print|intros _; apply quiet_print_lines].
Qed.

Lemma quiet_process_post_data (http_method : string) (args : Args)
    (endpoints : catalog) :
  quiet (@process_post_data World json_loads http_method args endpoints).
Proof.
  unfold process_post_data. cbv zeta. repeat quiet_step.
Qed.

(** *** The two parts of [main] *)

Lemma main_phases (args : Args) s :
  calls_endpoint args ->
  main http json_loads args s =
  let self := API_init (arg_server args) (arg_api args) in
  match prepare http json_loads self args s with
  | (Ok (http_method, post_data), s') =>
      finish http self args http_method post_data s'
  | (Raise e, s') => (Raise e, s')
  end.
Proof.
  intros (Hl & He & Hf).
  unfold main, prepare, finish, parse_arguments, bind, ret, lift.
  rewrite Hf, Hl, He. simpl.
  destruct (fetch_api_doc _ _ _ _ _) as [[endpoints|] s1]; [|reflexivity].
  destruct (determine_http_method args endpoints) as [m|]; [|reflexivity].
  destruct (process_post_data _ _ _ _ _) as [[body|] s3]; reflexivity.
Qed.

(** [prepare] sends the discovery GET and nothing else. *)
Lemma prepare_requests self (args : Args) s r s' :
  prepare http json_loads self args s = (r, s') ->
  requests_of (log s') = (requests_of (log s) ++ [doc_request self])%list.
Proof.
  unfold prepare, bind. rewrite fetch_api_doc_run. cbv zeta.
  destruct (http (doc_request self) (world s)) as [[x|] w1].
  2:{ intros H. injection H as _ <-. simpl.
      autorewrite with requests. reflexivity. }
  assert (Hq : forall (c : M World (string * option payload)) l,
             quiet c -> requests_of l = [] ->
             c (State w1 (log s ++ Http (doc_request self) (Some x) :: l))
             = (r, s') ->
             requests_of (log s')
             = (requests_of (log s) ++ [doc_request self])%list).
  { intros c l Hc Hl H. destruct (Hc (State w1 (log s ++
        Http (doc_request self) (Some x) :: l))) as (r' & lines & E).
    rewrite E in H. injection H as _ <-. simpl.
    autorewrite with requests. simpl. now rewrite Hl, app_nil_r. }
  destruct (status_code x =? 200).
  - destruct (catalog_of self x) as [endpoints|e].
    + apply (Hq (bind (lift (determine_http_method args endpoints))
                   (fun m => bind (process_post_data json_loads m args endpoints)
                               (fun body => ret (m, body))))).
      * apply quiet_bind; [apply quiet_lift|intros m].
        apply quiet_bind; [apply quiet_process_post_data|intros body].
        apply quiet_ret.
      * apply requests_of_doc_diagnostics.
    + apply (Hq (raise e)); [apply quiet_raise|].
      apply requests_of_doc_diagnostics.
  - apply (Hq (bind (lift (determine_http_method args []))
                 (fun m => bind (process_post_data json_loads m args [])
                             (fun body => ret (m, body))))).
    + apply quiet_bind; [apply quiet_lift|intros m].
      apply quiet_bind; [apply quiet_process_post_data|intros body].
      apply quiet_ret.
    + reflexivity.
Qed.

Lemma finish_run self (args : Args) (http_method : string)
    (post_data : option payload) s :
  finish http self args http_method post_data s =
  let user := arg_user args in
  let r := auth_request self user in
  match http r (world s) with
  | (Some x, w) =>
      if status_code x =? 200 then
        let s' := State w (log s ++ Http r (Some x) ::
                           if arg_verbose args
                           then [Out (status_line "POST" (auth_url self user) x)]
                           else []) in
        match token_of x with
        | Ok token =>
            if truthy token then
              make_request http self token (endpoint_text args) http_method
                (arg_verbose args) post_data s'
            else (Ok tt, s')
        | Raise e => (Raise e, s')
        end
      else
        (Ok tt,
         State w (log s ++ Http r (Some x) ::
                  failure_report (auth_url self user) x))
  | (None, w) => (Raise RequestException, State w (log s ++ [Http r None]))
  end.
Proof.
  unfold finish, bind. rewrite authenticate_run. cbv zeta.
  destruct (http _ (world s)) as [[x|] w]; [|reflexivity].
  destruct (status_code x =? 200); [|reflexivity].
  destruct (token_of x) as [token|]; [|reflexivity].
  destruct (truthy token); reflexivity.
Qed.

(** With an empty catalog [determine_http_method] and
    [process_post_data] never raise. *)
Lemma determine_http_method_empty (args : Args) :
  exists m, determine_http_method args [] = Ok m.
Proof.
  unfold determine_http_method.
  destruct (arg_delete args), (arg_patch args), (arg_data args),
    (arg_endpoint args); simpl; eauto.
Qed.

Lemma process_post_data_empty (http_method : string) (args : Args) s :
  exists post_data lines,
    process_post_data json_loads http_method args [] s
    = (Ok post_data, State (world s) (log s ++ map Out lines)).
Proof.
  assert (Hs : schema_for http_method args [] = JNull).
  { unfold schema_for, endpoint_doc. now destruct (arg_endpoint args). }
  assert (Hret : forall x : option payload,
             exists post_data lines,
               @ret World _ x s
               = (Ok post_data, State (world s) (log s ++ map Out lines))).
  { intros x. exists x, []. simpl. rewrite app_nil_r. now destruct s. }
  unfold process_post_data. cbv zeta. rewrite Hs.
  destruct (negb _); [apply Hret|].
  destruct (arg_data args) as [raw|]; [|apply Hret].
  destruct (is_dict _); [apply Hret|].
  eexists None, [_]. reflexivity.
Qed.

End Runs.

(* ================================================================== *)
(** ** Configuration *)

Lemma API_init_slashes (srv prefix : string) (n m : nat) :
  API_init (srv ++ Str.repeat "/" n) (prefix ++ Str.repeat "/" m)
  = API_init srv prefix.
Proof.
  unfold API_init. now rewrite !rstrip_app_repeat.
Qed.

Lemma API_init_stripped (srv prefix : string) :
  API_init (Str.rstrip "/" srv) (Str.rstrip "/" prefix) = API_init srv prefix.
Proof.
  unfold API_init. now rewrite !rstrip_idempotent.
Qed.

(* ================================================================== *)
(** ** Properties of the client *)

Section Properties.

Variable World : Type.
Variable http : request -> World -> option response * World.
Variable json_loads : string -> option json.

Implicit Types (s : state World) (args a : Args) (endpoints : catalog).

Lemma main_config (a : Args) (srv srv' prefix prefix' : string) :
  API_init srv prefix = API_init srv' prefix' ->
  forall s,
    main http json_loads (with_config a srv prefix) s
    = main http json_loads (with_config a srv' prefix') s.
Proof.
  intros E s.
  unfold main, parse_arguments, bind, ret, with_config.
  cbn [arg_delete arg_patch].
  destruct (arg_delete a && arg_patch a); [reflexivity|].
  cbn [arg_server arg_api arg_user arg_patch arg_delete arg_list arg_verbose
       arg_endpoint arg_data endpoint_text].
  rewrite E. reflexivity.
Qed.

(** C10. Trailing slashes in [--server] and [--api] change nothing:
    the client built from values that end in any number of "/" has the
    API object, and so the auth, discovery and request URLs and the
    whole run, of the client built from the stripped values. *)
Theorem trailing_slashes_ignored (a : Args) (srv prefix : string)
    (n m : nat) :
  let slashed := API_init (srv ++ Str.repeat "/" n)
                          (prefix ++ Str.repeat "/" m) in
  let stripped := API_init (Str.rstrip "/" srv) (Str.rstrip "/" prefix) in
  slashed = stripped /\
  (forall user, auth_url slashed user = auth_url stripped user) /\
  doc_url slashed = doc_url stripped /\
  (forall endpoint,
     request_url slashed endpoint = request_url stripped endpoint) /\
  (forall s,
     main http json_loads (with_config a (srv ++ Str.repeat "/" n)
                         (prefix ++ Str.repeat "/" m)) s
     = main http json_loads
         (with_config a (Str.rstrip "/" srv) (Str.rstrip "/" prefix)) s).
Proof.
  intros slashed stripped.
  assert (E : slashed = stripped).
  { unfold slashed, stripped.
    now rewrite API_init_slashes, API_init_stripped. }
  repeat split; try (intros; rewrite E; reflexivity).
  intros s. apply main_config. exact E.
Qed.

(* ---------------------------------------------------------------- *)
(** *** Building the body *)

Lemma body_method_test (http_method : string) :
  body_method http_method ->
  String.eqb http_method "POST" || String.eqb http_method "PATCH" = true.
Proof. intros [-> | ->]; reflexivity. Qed.

(** C4. A data argument that decodes to a JSON object is the body, as
    decoded: the catalog is not consulted, nothing is coerced and
    nothing is printed. *)
Theorem object_data_verbatim (http_method : string) args endpoints
    (raw : string) (d : list (string * json)) s :
  body_method http_method ->
  arg_data args = Some raw ->
  json_loads raw = Some (JObj d) ->
  process_post_data json_loads http_method args endpoints s
  = (Ok (Some (Loaded (JObj d))), s).
Proof.
  intros Hm Hd Hl.
  unfold process_post_data, loads_or_text.
  rewrite (body_method_test _ Hm), Hd, Hl. reflexivity.
Qed.

(** The two refusals of [process_post_data]: a message, and no body. *)
Lemma no_schema_message (http_method : string) args endpoints (raw : string)
    s :
  body_method http_method ->
  arg_data args = Some raw ->
  is_dict (loads_or_text json_loads raw) = false ->
  schema_for http_method args endpoints = JNull ->
  process_post_data json_loads http_method args endpoints s
  = (Ok None,
     State (world s)
       (log s ++ [Out [Lit ("No " ++ http_method ++ " data schema for "
                            ++ endpoint_text args)]])).
Proof.
  intros Hm Hd Hnd Hs. unfold process_post_data.
  rewrite (body_method_test _ Hm), Hd. simpl. rewrite Hnd, Hs. reflexivity.
Qed.

Lemma ambiguous_schema_message (http_method : string) args endpoints
    (raw : string) (sch : list (string * json)) (required : list json) s :
  body_method http_method ->
  arg_data args = Some raw ->
  is_dict (loads_or_text json_loads raw) = false ->
  schema_for http_method args endpoints = JObj sch ->
  Dict.get "type" sch = Some (JStr "object") ->
  Dict.get_default "required" (JArr []) sch = JArr required ->
  List.length required <> 1%nat ->
  process_post_data json_loads http_method args endpoints s
  = (Ok None,
     State (world s)
       (log s ++ [Out [Lit (endpoint_text args ++ " " ++ http_method
                            ++ " requires an object")]])).
Proof.
  intros Hm Hd Hnd Hs Ht Hr Hn. unfold process_post_data.
  rewrite (body_method_test _ Hm), Hd. simpl. rewrite Hnd, Hs.
  unfold bind, lift, py_get. unfold Dict.get_default at 1. rewrite Ht. simpl.
  rewrite Hr. simpl.
  destruct (Nat.eqb_spec (List.length required) 1); [contradiction|].
  reflexivity.
Qed.

(** What [process_post_data] does under an object schema that requires
    exactly one property. *)
Lemma process_one_required (http_method : string) args endpoints
    (raw : string) (sch props : list (string * json)) (key : string) s :
  body_method http_method ->
  arg_data args = Some raw ->
  is_dict (loads_or_text json_loads raw) = false ->
  schema_for http_method args endpoints = JObj sch ->
  Dict.get "type" sch = Some (JStr "object") ->
  Dict.get "required" sch = Some (JArr [JStr key]) ->
  Dict.get "properties" sch = Some (JObj props) ->
  forall p,
  Dict.get key props = Some (JObj p) ->
  process_post_data json_loads http_method args endpoints s
  = (Ok (Some (Wrapped (JStr key)
                 (if is_str (Dict.get_default "type" JNull p) "number"
                  then coerce_number (loads_or_text json_loads raw)
                  else loads_or_text json_loads raw))), s).
Proof.
  intros Hm Hd Hnd Hs Ht Hr Hp p Hk.
  unfold process_post_data.
  rewrite (body_method_test _ Hm), Hd. simpl.
  rewrite Hnd, Hs.
  unfold bind, lift, ret, py_get, Dict.get_default.
  rewrite Ht, Hp, Hr. simpl.
  unfold Dict.get_default. rewrite Hk. reflexivity.
Qed.


(* ---------------------------------------------------------------- *)
(** *** Authentication *)


(* ---------------------------------------------------------------- *)
(** *** The discovery document *)


(** C5. Every endpoint of the catalog comes from a path of the document
    that starts with the API prefix and does not end in "-info", and
    its name is that path without the prefix and without the "/"
    characters that follow it. *)
Theorem catalog_endpoints_under_prefix (self : API)
    (verbose print_data : bool) (s s' : state World) (endpoints : catalog)
    (name : string) :
  fetch_api_doc http self verbose print_data s = (Ok endpoints, s') ->
  In name (Dict.keys endpoints) ->
  exists resp api_doc paths path ops k,
    http (doc_request self) (world s) = (Some resp, world s') /\
    json_body resp = Some api_doc /\
    py_get api_doc "paths" (JObj []) = Ok (JObj paths) /\
    In (path, ops) paths /\
    path = api self ++ Str.repeat "/" k ++ name /\
    (forall t, name <> String "/" t) /\
    (forall t, path <> t ++ "-info").
Proof.
  rewrite fetch_api_doc_run. cbv zeta.
  destruct (http (doc_request self) (world s)) as [[resp|] w1];
    [|discriminate].
  destruct (status_code resp =? 200).
  2:{ intros H. injection H as <- _. intros []. }
  unfold catalog_of.
  destruct (json_body resp) as [api_doc|] eqn:Hj; [|discriminate].
  intros H Hn. injection H as H <-.
  destruct (build_catalog_keys _ _ _ H name Hn)
    as (paths & Hp & path & ops & Hin & Hpre & Hinfo & ->).
  destruct (endpoint_name_spec self path Hpre) as (k & Hk & Hlead).
  exists resp, api_doc, paths, path, ops, k.
  repeat split; try assumption; try reflexivity.
  apply endswith_false, Hinfo.
Qed.

(* ---------------------------------------------------------------- *)
(** *** The response to the request *)

Lemma ok_2xx (r : response) : 200 <= status_code r < 300 -> ok r = true.
Proof.
  unfold ok. intros H.
  destruct (Z.leb_spec 400 (status_code r)); [lia|reflexivity].
Qed.

(** C8, amended. After a 2xx response the body is read as JSON when
    that succeeds and as its stripped text otherwise, and a blank body
    gives nothing to print.  The value read is printed when it is
    truthy: indented by [json.dumps] exactly when it is an object, and
    by [print] as it is otherwise, arrays included. *)
Theorem response_printing (self : API) (token : json)
    (endpoint http_method : string) (verbose : bool)
    (post_data : option payload) (s : state World) (resp : response)
    (w' : World) :
  let r := main_request self token endpoint http_method post_data in
  let body := Str.strip (text resp) in
  let parsed := parse_response resp in
  http r (world s) = (Some resp, w') ->
  200 <= status_code resp < 300 ->
  (body = EmptyString -> parsed = JNull) /\
  (body <> EmptyString ->
   forall v, json_body resp = Some v -> parsed = v) /\
  (body <> EmptyString -> json_body resp = None -> parsed = JStr body) /\
  exists shown,
    make_request http self token endpoint http_method verbose post_data s
    = (Ok tt,
       State w' (log s ++ body_echo http_method verbose post_data
                 ++ Http r (Some resp)
                 :: (if verbose
                     then [Out (status_line http_method
                                  (request_url self endpoint) resp)]
                     else [])
                 ++ shown)) /\
    (truthy parsed = false -> shown = []) /\
    (truthy parsed = true -> is_dict parsed = true ->
     shown = [Out [Dumps (Loaded parsed)]]) /\
    (truthy parsed = true -> is_dict parsed = false ->
     shown = [Out [Str parsed]]).
Proof.
  intros r body parsed Hw Hst.
  assert (Hparsed : parsed = if negb (String.eqb body EmptyString)
                             then match json_body resp with
                                  | Some v => v
                                  | None => JStr body
                                  end
                             else JNull) by reflexivity.
  repeat split.
  - intros E. rewrite Hparsed, E. reflexivity.
  - intros E v Hv. rewrite Hparsed, Hv.
    destruct (String.eqb_spec body EmptyString); [contradiction|reflexivity].
  - intros E Hv. rewrite Hparsed, Hv.
    destruct (String.eqb_spec body EmptyString); [contradiction|reflexivity].
  - exists (result_lines parsed). split.
    + rewrite make_request_run. cbv zeta. fold r. rewrite Hw.
      unfold response_lines. rewrite (ok_2xx _ Hst). reflexivity.
    + unfold result_lines. repeat split; intros Ht; rewrite Ht;
        [reflexivity| |]; intros ->; reflexivity.
Qed.

End Properties.

(* ================================================================== *)
(** ** Runs against the player *)

Example player_catalog_endpoints :
  Dict.keys player_catalog = ["play"; "volume"; "seek-to"; "queue"].
Proof. vm_compute. reflexivity. Qed.

Example player_catalog_volume :
  schema_for "POST" (call "volume" (Some "75")) player_catalog
  = JObj volume_schema.
Proof. vm_compute. reflexivity. Qed.

Example player_catalog_queue : Dict.get "queue" player_catalog = Some [].
Proof. vm_compute. reflexivity. Qed.

(** With no flag and no data, [stream] is called with PATCH, the first
    method it lists. *)
Lemma determine_http_method_priority_witness :
  known_methods (call "stream" None) stream_catalog
  = Some [("PATCH", Descriptor (JStr "Patch") JNull JNull);
          ("POST", Descriptor (JStr "Post") JNull JNull)] /\
  determine_http_method (call "stream" None) stream_catalog = Ok "PATCH".
Proof.
  split; [reflexivity|].
  destruct (determine_http_method_priority (call "stream" None) stream_catalog)
    as (_ & _ & _ & _ & _ & H).
  apply (H [("PATCH", Descriptor (JStr "Patch") JNull JNull);
            ("POST", Descriptor (JStr "Post") JNull JNull)]
           "PATCH" (Descriptor (JStr "Patch") JNull JNull)
           [("POST", Descriptor (JStr "Post") JNull JNull)]);
    reflexivity.
Defined.


(** An object given as data is sent as it is, whatever the endpoint. *)
Lemma object_data_verbatim_witness :
  Decoder.loads (json_text "{'volume': 75}")
  = Some (JObj [("volume", JInt 75)]) /\
  process_post_data Decoder.loads "PATCH"
    (call "play" (Some (json_text "{'volume': 75}"))) player_catalog
    (State tt [])
  = (Ok (Some (Loaded (JObj [("volume", JInt 75)]))), State tt []).
Proof.
  split; [vm_compute; reflexivity|].
  apply (object_data_verbatim unit Decoder.loads "PATCH"
           (call "play" (Some (json_text "{'volume': 75}"))) player_catalog
           (json_text "{'volume': 75}")).
  - right. reflexivity.
  - reflexivity.
  - vm_compute. reflexivity.
Defined.

(** The endpoint [volume] of the player's catalog comes from the path
    [/api/v1/volume]. *)
Lemma catalog_endpoints_under_prefix_witness :
  fst (fetch_api_doc (serve (player doc_ok auth_ok no_content)) local_api
         false false (State tt []))
  = Ok player_catalog /\
  In "volume" (Dict.keys player_catalog) /\
  exists path k,
    path = "/api/v1" ++ Str.repeat "/" k ++ "volume" /\
    (forall t, path <> t ++ "-info").
Proof.
  split; [vm_compute; reflexivity|].
  split; [vm_compute; auto|].
  destruct (catalog_endpoints_under_prefix unit
              (serve (player doc_ok auth_ok no_content)) local_api
              false false (State tt [])
              (snd (fetch_api_doc (serve (player doc_ok auth_ok no_content))
                      local_api false false (State tt [])))
              player_catalog "volume"
              ltac:(vm_compute; reflexivity) ltac:(vm_compute; auto))
    as (resp & api_doc & paths & path & ops & k
        & Hw & Hj & Hp & Hin & Hk & _ & Hi).
  exists path, k. split; assumption.
Defined.



(** An object in the response is printed by [json.dumps]. *)
Lemma response_printing_witness :
  200 <= status_code volume_reply < 300 /\
  make_request (serve (player doc_ok auth_ok volume_reply)) local_api
    (JStr "secret") "volume" "GET" false None (State tt [])
  = (Ok tt,
     State tt [Http (main_request local_api (JStr "secret") "volume" "GET" None)
                    (Some volume_reply);
               Out [Dumps (Loaded (JObj [("volume", JInt 75)]))]]).
Proof.
  assert (Hst : 200 <= status_code volume_reply < 300)
    by (change (200 <= 200 < 300); lia).
  split; [exact Hst|].
  destruct (response_printing unit (serve (player doc_ok auth_ok volume_reply))
              local_api (JStr "secret") "volume" "GET" false None
              (State tt []) volume_reply tt eq_refl Hst)
    as (_ & _ & _ & shown & Hrun & _ & Hobj & _).
  rewrite Hrun, Hobj by (vm_compute; reflexivity).
  vm_compute. reflexivity.
Defined.

(** C8, as stated, fails on an array: the response [[1, 2]] is printed
    by [print], on one line, and not by [json.dumps] with indentation. *)
Lemma array_response_not_indented :
  200 <= status_code queue_content < 300 /\
  parse_response queue_content = JArr [JInt 1; JInt 2] /\
  printed_of
    (log (snd (make_request (serve (player doc_ok auth_ok queue_content))
                 local_api (JStr "secret") "queue" "GET" false None
                 (State tt []))))
  = [[Str (JArr [JInt 1; JInt 2])]] /\
  printed_of
    (log (snd (make_request (serve (player doc_ok auth_ok queue_content))
                 local_api (JStr "secret") "queue" "GET" false None
                 (State tt []))))
  <> [[Dumps (Loaded (JArr [JInt 1; JInt 2]))]].
Proof.
  split; [change (200 <= 200 < 300); lia|].
  repeat split; try (vm_compute; reflexivity).
  vm_compute. discriminate.
Qed.

(** C1 on the code: no schema is recorded for [POST play], and
    [seek-to] requires two properties; in both runs the message is
    printed and then the POST is sent all the same, without a body. *)
Theorem message_then_request :
  (let run := play doc_ok auth_ok no_content (call "play" (Some "50")) in
   fst run = Ok tt /\
   printed_of (log (snd run)) = [[Lit "No POST data schema for play"]] /\
   requests_of (log (snd run))
   = [doc_request local_api; auth_request local_api local_user;
      main_request local_api (JStr "secret") "play" "POST" None]) /\
  (let run := play doc_ok auth_ok no_content (call "seek-to" (Some "10")) in
   fst run = Ok tt /\
   printed_of (log (snd run)) = [[Lit "seek-to POST requires an object"]] /\
   requests_of (log (snd run))
   = [doc_request local_api; auth_request local_api local_user;
      main_request local_api (JStr "secret") "seek-to" "POST" None]).
Proof.
  repeat split; vm_compute; reflexivity.
Qed.

(** C9 on the code: the path [/api/v1/queue] has no operation, its
    endpoint gets an empty method map, and calling it with no flag and
    no data raises [IndexError] when the first method is taken. *)
Theorem empty_method_map_raises :
  Dict.get "queue" player_catalog = Some [] /\
  determine_http_method (call "queue" None) player_catalog = Raise IndexError /\
  fst (play doc_ok auth_ok no_content (call "queue" None)) = Raise IndexError /\
  requests_of (log (snd (play doc_ok auth_ok no_content (call "queue" None))))
  = [doc_request local_api].
Proof.
  repeat split; vm_compute; reflexivity.
Qed.

(* ================================================================== *)
(** ** Further properties of the client *)

Lemma truthy_falsy (v : json) : truthy v = false <-> falsy v.
Proof.
  unfold falsy. split.
  - destruct v as [|[]|n|[]|[]|[]|[]]; simpl; try discriminate; intros H;
      try (destruct (Z.eqb_spec n 0); [subst|discriminate]); eauto 10.
  - intros [->|[->|[->|[[sg ->]|[->|[->| ->]]]]]]; reflexivity.
Qed.

Section Extras.

Variable World : Type.
Variable http : request -> World -> option response * World.
Variable json_loads : string -> option json.

Implicit Types (s : state World) (args argv : Args) (endpoints : catalog)
  (self : API).

(* ---------------------------------------------------------------- *)
(** *** Arguments *)

(** X1. With both [--delete] and [--patch] the run ends in the usage
    error of the argument parser (exit status 2): nothing is fetched,
    sent or printed besides that message. *)
Theorem usage_error_sends_nothing (argv : Args) (w : World) :
  arg_delete argv = true -> arg_patch argv = true ->
  run http json_loads argv w
  = (Raise (SystemExit 2),
     State w [Usage
       "Cannot specify both --delete and --patch options simultaneously."]).
Proof.
  intros Hd Hp. unfold run, main, bind, parse_arguments.
  rewrite Hd, Hp. reflexivity.
Qed.

(* ---------------------------------------------------------------- *)
(** *** Listing *)

Lemma print_lines_run endpoints s :
  print_lines endpoints s
  = (Ok tt,
     State (world s)
       (log s ++ map (fun em => Out (endpoint_line (fst em) (snd em)))
                     endpoints)).
Proof.
  revert s. induction endpoints as [|[e ms] rest IH]; intros s; simpl.
  - unfold ret. rewrite app_nil_r. now destruct s.
  - unfold bind, print, emit. rewrite IH. simpl.
    now rewrite <- app_assoc.
Qed.

Lemma printed_of_app (l l' : list event) :
  printed_of (l ++ l') = (printed_of l ++ printed_of l')%list.
Proof.
  induction l as [|[]]; simpl; rewrite ?IHl; reflexivity.
Qed.

Lemma printed_of_out {A} (f : A -> list frag) (l : list A) :
  printed_of (map (fun x => Out (f x)) l) = map f l.
Proof. induction l; simpl; congruence. Qed.

Lemma requests_of_out_map {A} (f : A -> list frag) (l : list A) :
  requests_of (map (fun x => Out (f x)) l) = [].
Proof. induction l; simpl; auto. Qed.

Lemma display_endpoints_run endpoints s :
  display_endpoints endpoints s
  = (Ok tt,
     State (world s)
       (log s ++
        match endpoints with
        | [] => [Out [Lit "No endpoints found!"]]
        | _ => Out [Lit "Available API endpoints:"]
               :: map (fun em => Out (endpoint_line (fst em) (snd em)))
                      endpoints
        end)).
Proof.
  unfold display_endpoints. destruct endpoints as [|em rest];
    [reflexivity|].
  unfold bind, print, emit. rewrite print_lines_run. simpl.
  now rewrite <- app_assoc.
Qed.


Lemma list_run (argv : Args) (w : World) :
  arg_list argv = true ->
  arg_delete argv && arg_patch argv = false ->
  run http json_loads argv w
  = bind (fetch_api_doc http (API_init (arg_server argv) (arg_api argv))
            (arg_verbose argv) (arg_verbose argv))
      display_endpoints (State w []).
Proof.
  intros Hl Hf. unfold run, main, bind, parse_arguments, ret.
  rewrite Hf, Hl. reflexivity.
Qed.

Lemma fetch_requests self (verbose print_data : bool) s
    (r : outcome catalog) s' :
  fetch_api_doc http self verbose print_data s = (r, s') ->
  requests_of (log s') = (requests_of (log s) ++ [doc_request self])%list.
Proof.
  rewrite fetch_api_doc_run. cbv zeta.
  destruct (http (doc_request self) (world s)) as [[x|] w1].
  - destruct (status_code x =? 200); intros H; injection H as _ <-;
      simpl; autorewrite with requests; simpl;
      autorewrite with requests; reflexivity.
  - intros H. injection H as _ <-. simpl.
    autorewrite with requests. reflexivity.
Qed.

Lemma list_requests (argv : Args) (w : World) :
  arg_list argv = true ->
  arg_delete argv && arg_patch argv = false ->
  requests_of (log (snd (run http json_loads argv w)))
  = [doc_request (API_init (arg_server argv) (arg_api argv))].
Proof.
  intros Hl Hf. rewrite (list_run argv w Hl Hf). unfold bind.
  destruct (fetch_api_doc http _ (arg_verbose argv) (arg_verbose argv)
              (State w [])) as [[endpoints|e] s1] eqn:Hfetch;
    pose proof (fetch_requests _ _ _ _ _ _ Hfetch) as Hreq; simpl in Hreq.
  - rewrite display_endpoints_run. simpl. rewrite requests_of_app, Hreq.
    destruct endpoints; simpl; [reflexivity|].
    now rewrite requests_of_out_map.
  - exact Hreq.
Qed.

(** X2. With [--list] (and no usage error) the only request of the run
    is the discovery GET, whatever else is on the command line: nothing
    is authenticated or sent to an endpoint.  When the fetch returns a
    catalog, the run ends normally after the listing. *)
Theorem list_only_fetches (argv : Args) (w : World) :
  let self := API_init (arg_server argv) (arg_api argv) in
  let result := run http json_loads argv w in
  arg_list argv = true ->
  arg_delete argv && arg_patch argv = false ->
  requests_of (log (snd result)) = [doc_request self] /\
  (forall endpoints s1,
     fetch_api_doc http self (arg_verbose argv) (arg_verbose argv)
       (State w []) = (Ok endpoints, s1) ->
     fst result = Ok tt /\
     world (snd result) = world s1 /\
     printed_of (log (snd result))
     = (printed_of (log s1) ++
        match endpoints with
        | [] => [[Lit "No endpoints found!"]]
        | _ => [Lit "Available API endpoints:"]
               :: map (fun em => endpoint_line (fst em) (snd em)) endpoints
        end)%list).
Proof.
  intros self result Hl Hf. split; [apply (list_requests argv w Hl Hf)|].
  intros endpoints s1 Hfetch. unfold result.
  rewrite (list_run argv w Hl Hf). unfold bind. fold self.
  rewrite Hfetch, display_endpoints_run. simpl.
  repeat split. rewrite printed_of_app. f_equal.
  destruct endpoints as [|em rest]; simpl; [reflexivity|].
  now rewrite (printed_of_out (fun em => endpoint_line (fst em) (snd em))).
Qed.

(* ---------------------------------------------------------------- *)
(** *** The request and its response *)

(** X4. A 4xx or 5xx response to the request is not an exception:
    [make_request] prints the status with its reason and the URL, and
    returns; nothing of the response body is shown, verbose or not. *)
Theorem make_request_failure self (token : json)
    (endpoint http_method : string) (verbose : bool)
    (post_data : option payload) s (resp : response) (w' : World) :
  let r := main_request self token endpoint http_method post_data in
  http r (world s) = (Some resp, w') ->
  400 <= status_code resp < 600 ->
  make_request http self token endpoint http_method verbose post_data s
  = (Ok tt,
     State w' (log s ++ body_echo http_method verbose post_data
               ++ [Http r (Some resp);
                   Out [Lit ("Request failed: "
                             ++ Str.of_Z (status_code resp) ++ " "
                             ++ reason resp)];
                   Out [Lit (server self ++ api self ++ "/" ++ endpoint)]])).
Proof.
  intros r Hw Hst. rewrite make_request_run. cbv zeta. fold r. rewrite Hw.
  unfold response_lines, ok.
  destruct (Z.leb_spec 400 (status_code resp)); [|lia].
  destruct (Z.ltb_spec (status_code resp) 600); [|lia].
  reflexivity.
Qed.

(** X5. A response that is not an error and whose body decodes to a
    falsy value (null, false, 0, an empty string, array or object)
    shows nothing: only the verbose status line, if asked for, is
    printed. *)
Theorem falsy_response_silent self (token : json)
    (endpoint http_method : string) (verbose : bool)
    (post_data : option payload) s (resp : response) (w' : World)
    (v : json) :
  let r := main_request self token endpoint http_method post_data in
  http r (world s) = (Some resp, w') ->
  ok resp = true ->
  json_body resp = Some v ->
  falsy v ->
  make_request http self token endpoint http_method verbose post_data s
  = (Ok tt,
     State w' (log s ++ body_echo http_method verbose post_data
               ++ Http r (Some resp)
               :: if verbose
                  then [Out (status_line http_method
                               (request_url self endpoint) resp)]
                  else [])).
Proof.
  intros r Hw Hok Hv Hf. rewrite make_request_run. cbv zeta. fold r.
  rewrite Hw. unfold response_lines, result_lines. rewrite Hok.
  assert (Ht : truthy (parse_response resp) = false).
  { unfold parse_response. rewrite Hv.
    destruct (negb _); [now apply truthy_falsy|reflexivity]. }
  rewrite Ht, app_nil_r. reflexivity.
Qed.

(* ---------------------------------------------------------------- *)
(** *** The shape of a run *)

Lemma finish_shape self args (m : string) (body : option payload) s
    (r : outcome unit) s' :
  let auth := auth_request self (arg_user args) in
  finish http self args m body s = (r, s') ->
  exists x w2 tail,
    http auth (world s) = (x, w2) /\
    log s' = (log s ++ Http auth x :: tail)%list /\
    (requests_of tail = [] \/
     exists y token,
       x = Some y /\ status_code y = 200 /\ token_of y = Ok token /\
       truthy token = true /\
       requests_of tail
       = [main_request self token (endpoint_text args) m body]).
Proof.
  intros auth. rewrite finish_run. cbv zeta. fold auth.
  destruct (http auth (world s)) as [[y|] w2].
  2:{ intros H. injection H as _ <-. exists None, w2, []. auto. }
  destruct (status_code y =? 200) eqn:Ey.
  2:{ intros H. injection H as _ <-.
      exists (Some y), w2, (failure_report (auth_url self (arg_user args)) y).
      auto. }
  apply Z.eqb_eq in Ey.
  set (line := if arg_verbose args
               then [Out (status_line "POST" (auth_url self (arg_user args)) y)]
               else []).
  assert (Hline : requests_of line = [])
    by (unfold line; destruct (arg_verbose args); reflexivity).
  destruct (token_of y) as [token|e] eqn:Htok.
  2:{ intros H. injection H as _ <-. exists (Some y), w2, line. auto. }
  destruct (truthy token) eqn:Ht.
  2:{ intros H. injection H as _ <-. exists (Some y), w2, line. auto. }
  rewrite make_request_run. cbv zeta. simpl.
  set (req := main_request self token (endpoint_text args) m body).
  destruct (http req w2) as [[z|] w3]; intros H; injection H as _ <-; simpl;
    rewrite <- app_assoc, <- app_comm_cons;
    eexists (Some y), w2, _; (split; [reflexivity|]); (split; [reflexivity|]);
    right; exists y, token; repeat split; auto;
    autorewrite with requests; simpl; rewrite Hline;
    autorewrite with requests; reflexivity.
Qed.

(** Where the authentication POST of a log comes from. *)
Lemma auth_event_origin (argv : Args) (w : World) (res : outcome unit)
    (st : state World) (y : response) :
  let self := API_init (arg_server argv) (arg_api argv) in
  run http json_loads argv w = (res, st) ->
  In (Http (auth_request self (arg_user argv)) (Some y)) (log st) ->
  calls_endpoint argv /\
  exists m body s1 w2,
    prepare http json_loads self argv (State w []) = (Ok (m, body), s1) /\
    http (auth_request self (arg_user argv)) (world s1) = (Some y, w2) /\
    finish http self argv m body s1 = (res, st).
Proof.
  intros self Hrun Hin.
  assert (Hdoc : forall l, requests_of l = [doc_request self] ->
                           ~ In (Http (auth_request self (arg_user argv))
                                      (Some y)) l).
  { intros l Hl H. apply in_requests_of in H. rewrite Hl in H.
    destruct H as [E|[]]. discriminate E. }
  destruct (arg_delete argv && arg_patch argv) eqn:Hf.
  { exfalso. unfold run, main, bind, parse_arguments in Hrun.
    rewrite Hf in Hrun. injection Hrun as _ <-.
    simpl in Hin. intuition discriminate. }
  destruct (arg_list argv) eqn:Hl.
  { exfalso. pose proof (list_requests argv w Hl Hf) as Hreq.
    fold self in Hreq. rewrite Hrun in Hreq. exact (Hdoc _ Hreq Hin). }
  destruct (nonempty (arg_endpoint argv)) eqn:He.
  2:{ exfalso. unfold run, main, bind, parse_arguments, ret in Hrun.
      rewrite Hf, Hl, He in Hrun. injection Hrun as _ <-.
      simpl in Hin. intuition discriminate. }
  assert (Hcall : calls_endpoint argv) by (repeat split; assumption).
  split; [exact Hcall|].
  unfold run in Hrun. rewrite main_phases in Hrun by exact Hcall.
  cbv zeta in Hrun. fold self in Hrun.
  destruct (prepare http json_loads self argv (State w []))
    as [[[m body]|e] s1] eqn:Hp.
  2:{ exfalso. injection Hrun as _ <-.
      exact (Hdoc _ (prepare_requests _ _ _ _ _ _ _ _ Hp) Hin). }
  pose proof (prepare_requests _ _ _ _ _ _ _ _ Hp) as Hreq. simpl in Hreq.
  destruct (finish_shape _ _ _ _ _ _ _ Hrun)
    as (x & w2 & tail & Hx & Hlog & Htail).
  exists m, body, s1, w2. repeat split; [|exact Hrun].
  rewrite Hlog in Hin. apply in_app_or in Hin. destruct Hin as [Hin|[Hin|Hin]].
  - destruct (Hdoc _ Hreq Hin).
  - injection Hin as ->. exact Hx.
  - exfalso. apply in_requests_of in Hin.
    destruct Htail as [Ht|(y' & token & _ & _ & _ & _ & Ht)];
      rewrite Ht in Hin; [destruct Hin|].
    destruct Hin as [E|[]]. discriminate E.
Qed.

(** The requests of any run. *)
Lemma run_requests (argv : Args) (w : World) :
  let self := API_init (arg_server argv) (arg_api argv) in
  let auth := auth_request self (arg_user argv) in
  let st := snd (run http json_loads argv w) in
  requests_of (log st) = [] \/
  requests_of (log st) = [doc_request self] \/
  requests_of (log st) = [doc_request self; auth] \/
  exists y token m body s1,
    prepare http json_loads self argv (State w []) = (Ok (m, body), s1) /\
    In (Http auth (Some y)) (log st) /\
    status_code y = 200 /\ token_of y = Ok token /\ truthy token = true /\
    requests_of (log st)
    = [doc_request self; auth;
       main_request self token (endpoint_text argv) m body].
Proof.
  intros self auth st. unfold st.
  destruct (arg_delete argv && arg_patch argv) eqn:Hf.
  { left. unfold run, main, bind, parse_arguments. rewrite Hf. reflexivity. }
  destruct (arg_list argv) eqn:Hl.
  { right. left. apply (list_requests argv w Hl Hf). }
  destruct (nonempty (arg_endpoint argv)) eqn:He.
  2:{ left. unfold run, main, bind, parse_arguments, ret.
      rewrite Hf, Hl, He. reflexivity. }
  unfold run. rewrite main_phases by (repeat split; assumption).
  cbv zeta. fold self.
  destruct (prepare http json_loads self argv (State w []))
    as [[[m body]|e] s1] eqn:Hp;
    pose proof (prepare_requests _ _ _ _ _ _ _ _ Hp) as Hreq; simpl in Hreq.
  2:{ right. left. exact Hreq. }
  destruct (finish http self argv m body s1) as [r s2] eqn:Hfin.
  destruct (finish_shape _ _ _ _ _ _ _ Hfin)
    as (x & w2 & tail & Hx & Hlog & Htail).
  simpl. rewrite Hlog. autorewrite with requests. simpl. rewrite Hreq.
  destruct Htail as [Ht|(y & token & -> & Hst & Htok & Htr & Ht)];
    rewrite Ht; simpl.
  - right. right. left. reflexivity.
  - right. right. right. exists y, token, m, body, s1.
    repeat split; auto. apply in_or_app. right. now left.
Qed.

(** X17. A run sends at most three requests and always in this order:
    the discovery GET, the authentication POST, the request to the
    endpoint.  None is repeated and none is sent before the one that
    precedes it. *)
Theorem requests_in_order (argv : Args) (w : World) :
  let self := API_init (arg_server argv) (arg_api argv) in
  exists token m body,
    begins (requests_of (log (snd (run http json_loads argv w))))
           [doc_request self; auth_request self (arg_user argv);
            main_request self token (endpoint_text argv) m body].
Proof.
  intros self.
  destruct (run_requests argv w)
    as [H|[H|[H|(y & token & m & body & s1 & _ & _ & _ & _ & _ & H)]]];
    fold self in H.
  1-3: exists JNull, EmptyString, None; rewrite H; eexists; reflexivity.
  exists token, m, body. rewrite H. exists []. reflexivity.
Qed.

(** X18. A request that carries a bearer token is sent only after an
    authentication POST answered by status 200 with a JSON object,
    and the token it carries is the truthy [accessToken] of that
    answer. *)
Theorem request_needs_token (argv : Args) (w : World) (r : request)
    (token : json) :
  let self := API_init (arg_server argv) (arg_api argv) in
  let st := snd (run http json_loads argv w) in
  In r (requests_of (log st)) ->
  req_bearer r = Some token ->
  truthy token = true /\
  req_url r = request_url self (endpoint_text argv) /\
  exists y body,
    In (Http (auth_request self (arg_user argv)) (Some y)) (log st) /\
    status_code y = 200 /\
    json_body y = Some (JObj body) /\
    Dict.get "accessToken" body = Some token.
Proof.
  intros self st Hin Hb.
  destruct (run_requests argv w)
    as [H|[H|[H|(y & token' & m & body & s1 & _ & Hy & Hst & Htok & Htr & H)]]];
    fold self st in H; try fold st in Hy; rewrite H in Hin; simpl in Hin.
  - destruct Hin.
  - destruct Hin as [<-|[]]. discriminate Hb.
  - destruct Hin as [<-|[<-|[]]]; discriminate Hb.
  - destruct Hin as [<-|[<-|[<-|[]]]]; try discriminate Hb.
    simpl in Hb. injection Hb as ->.
    split; [exact Htr|]. split; [reflexivity|].
    unfold token_of in Htok.
    destruct (json_body y) as [[| | | | | |d]|] eqn:Hj; try discriminate.
    simpl in Htok. injection Htok as Htok.
    exists y, d. repeat split; auto.
    unfold Dict.get_default in Htok.
    destruct (Dict.get "accessToken" d) as [t|]; [congruence|].
    subst token. discriminate Htr.
Qed.

Lemma prepare_result self args s (m : string) (body : option payload) s1 :
  prepare http json_loads self args s = (Ok (m, body), s1) ->
  exists endpoints s0,
    fetch_api_doc http self (arg_verbose args) false s = (Ok endpoints, s0) /\
    determine_http_method args endpoints = Ok m /\
    process_post_data json_loads m args endpoints s0 = (Ok body, s1).
Proof.
  unfold prepare, bind, lift, ret.
  destruct (fetch_api_doc _ _ _ _ _) as [[endpoints|] s0] eqn:Hf;
    [|discriminate].
  destruct (determine_http_method args endpoints) as [m'|] eqn:Hm;
    [|discriminate].
  destruct (process_post_data _ _ _ _ _) as [[body'|] s2] eqn:Hp;
    [|discriminate].
  intros H. injection H as <- <- <-.
  exists endpoints, s0. auto.
Qed.

(** X19. The request to the endpoint is put together from the results
    of the earlier steps: its method is the one
    [determine_http_method] resolved against the fetched catalog, its
    body the one [process_post_data] built for that method, and its URL
    the server, the prefix and the endpoint as typed. *)
Theorem request_as_prepared (argv : Args) (w : World) (r : request)
    (token : json) :
  let self := API_init (arg_server argv) (arg_api argv) in
  let st := snd (run http json_loads argv w) in
  In r (requests_of (log st)) ->
  req_bearer r = Some token ->
  exists endpoints s0 s1,
    fetch_api_doc http self (arg_verbose argv) false (State w [])
    = (Ok endpoints, s0) /\
    determine_http_method argv endpoints = Ok (req_method r) /\
    process_post_data json_loads (req_method r) argv endpoints s0
    = (Ok (req_json r), s1) /\
    req_url r = server self ++ api self ++ "/" ++ endpoint_text argv.
Proof.
  intros self st Hin Hb.
  destruct (run_requests argv w)
    as [H|[H|[H|(y & token' & m & body & s1 & Hp & _ & _ & _ & _ & H)]]];
    fold self st in H; rewrite H in Hin; simpl in Hin.
  - destruct Hin.
  - destruct Hin as [<-|[]]. discriminate Hb.
  - destruct Hin as [<-|[<-|[]]]; discriminate Hb.
  - destruct Hin as [<-|[<-|[<-|[]]]]; try discriminate Hb.
    destruct (prepare_result _ _ _ _ _ _ Hp) as (endpoints & s0 & Hf & Hm & Hd).
    exists endpoints, s0, s1. simpl. auto.
Qed.

(** X13. With [--delete] a data argument is dropped without a word: no
    request of the run has a body, and the request to the endpoint, if
    one is sent, is a DELETE. *)
Theorem delete_drops_data (argv : Args) (w : World) (r : request) :
  let st := snd (run http json_loads argv w) in
  arg_delete argv = true ->
  In r (requests_of (log st)) ->
  req_json r = None /\
  (req_bearer r <> None -> req_method r = "DELETE").
Proof.
  intros st Hd Hin.
  destruct (run_requests argv w)
    as [H|[H|[H|(y & token & m & body & s1 & Hp & _ & _ & _ & _ & H)]]];
    fold st in H; rewrite H in Hin; simpl in Hin.
  - destruct Hin.
  - destruct Hin as [<-|[]]. split; [reflexivity|]. intros E. now destruct E.
  - destruct Hin as [<-|[<-|[]]]; (split; [reflexivity|]);
      intros E; now destruct E.
  - destruct (prepare_result _ _ _ _ _ _ Hp) as (endpoints & s0 & _ & Hm & Hb).
    unfold determine_http_method in Hm. rewrite Hd in Hm.
    injection Hm as <-. unfold process_post_data in Hb. simpl in Hb.
    injection Hb as <- _.
    destruct Hin as [<-|[<-|[<-|[]]]]; (split; [reflexivity|]);
      try (intros E; now destruct E).
    reflexivity.
Qed.

(* ---------------------------------------------------------------- *)
(** *** Authentication, again *)

(** X6. An authentication answered by status 200 whose JSON object has
    no [accessToken], or a falsy one, ends the run without the request
    and without any message: the run returns normally and, the verbose
    status line apart, prints nothing after the POST. *)
Theorem token_missing_silent (argv : Args) (w : World) (res : outcome unit)
    (st : state World) (y : response) (d : list (string * json)) :
  let self := API_init (arg_server argv) (arg_api argv) in
  let user := arg_user argv in
  run http json_loads argv w = (res, st) ->
  In (Http (auth_request self user) (Some y)) (log st) ->
  status_code y = 200 ->
  json_body y = Some (JObj d) ->
  falsy (Dict.get_default "accessToken" JNull d) ->
  res = Ok tt /\
  requests_of (log st) = [doc_request self; auth_request self user] /\
  exists before,
    log st = (before ++ Http (auth_request self user) (Some y)
                     :: if arg_verbose argv
                        then [Out (status_line "POST" (auth_url self user) y)]
                        else [])%list.
Proof.
  intros self user Hrun Hin Hst Hj Hf.
  destruct (auth_event_origin argv w res st y Hrun Hin)
    as (_ & m & body & s1 & w2 & Hp & Hy & Hfin).
  fold self user in Hp, Hy, Hfin.
  pose proof (prepare_requests _ _ _ _ _ _ _ _ Hp) as Hreq. simpl in Hreq.
  rewrite finish_run in Hfin. cbv zeta in Hfin. fold user in Hfin.
  rewrite Hy, Hst in Hfin. simpl in Hfin.
  unfold token_of in Hfin. rewrite Hj in Hfin. simpl in Hfin.
  apply truthy_falsy in Hf. rewrite Hf in Hfin.
  injection Hfin as <- <-. simpl. split; [reflexivity|]. split.
  - autorewrite with requests. simpl. rewrite Hreq.
    destruct (arg_verbose argv); reflexivity.
  - exists (log s1). reflexivity.
Qed.

(** X7. An authentication answered by status 200 with a body that is
    not JSON, or that is JSON but not an object, is not handled: the
    run ends in the exception ([JSONDecodeError], [AttributeError])
    and the request is not sent. *)
Theorem token_unreadable_raises (argv : Args) (w : World)
    (res : outcome unit) (st : state World) (y : response) :
  let self := API_init (arg_server argv) (arg_api argv) in
  let user := arg_user argv in
  run http json_loads argv w = (res, st) ->
  In (Http (auth_request self user) (Some y)) (log st) ->
  status_code y = 200 ->
  (json_body y = None -> res = Raise JSONDecodeError) /\
  (forall v, json_body y = Some v -> is_dict v = false ->
             res = Raise AttributeError) /\
  ((json_body y = None \/
    exists v, json_body y = Some v /\ is_dict v = false) ->
   requests_of (log st) = [doc_request self; auth_request self user]).
Proof.
  intros self user Hrun Hin Hst.
  destruct (auth_event_origin argv w res st y Hrun Hin)
    as (_ & m & body & s1 & w2 & Hp & Hy & Hfin).
  fold self user in Hp, Hy, Hfin.
  pose proof (prepare_requests _ _ _ _ _ _ _ _ Hp) as Hreq. simpl in Hreq.
  rewrite finish_run in Hfin. cbv zeta in Hfin. fold user in Hfin.
  rewrite Hy, Hst in Hfin. simpl in Hfin.
  assert (Hraise : forall e, token_of y = Raise e ->
             res = Raise e /\
             requests_of (log st)
             = [doc_request self; auth_request self user]).
  { intros e He. rewrite He in Hfin. injection Hfin as <- <-.
    split; [reflexivity|]. simpl. autorewrite with requests. simpl.
    rewrite Hreq. destruct (arg_verbose argv); reflexivity. }
  assert (Hnone : json_body y = None -> token_of y = Raise JSONDecodeError).
  { intros H. unfold token_of. now rewrite H. }
  assert (Hbad : forall v, json_body y = Some v -> is_dict v = false ->
                           token_of y = Raise AttributeError).
  { intros v H Hv. unfold token_of. rewrite H.
    destruct v; try reflexivity. discriminate Hv. }
  repeat split.
  - intros H. apply (Hraise _ (Hnone H)).
  - intros v H Hv. apply (Hraise _ (Hbad v H Hv)).
  - intros [H|(v & H & Hv)].
    + apply (Hraise _ (Hnone H)).
    + apply (Hraise _ (Hbad v H Hv)).
Qed.

(* ---------------------------------------------------------------- *)
(** *** The discovery document, again *)

Lemma unreadable_doc_raises self (x : response) (e : exn) :
  unreadable_doc x e -> catalog_of self x = Raise e.
Proof.
  unfold catalog_of, build_catalog.
  intros [[-> ->]|[(v & -> & Hv & ->)|(d & p & -> & Hp & Hd & ->)]].
  - reflexivity.
  - destruct v; try reflexivity. discriminate Hv.
  - simpl. unfold Dict.get_default. rewrite Hp. simpl.
    destruct p; try reflexivity. discriminate Hd.
Qed.

(** X8. Unlike a failed fetch, a discovery answer with status 200 that
    cannot be read (not JSON, not an object, or with a ["paths"] that
    is not an object) is not handled: the run ends in the exception
    before anything else is sent, with or without [--list]. *)
Theorem doc_unreadable_raises (argv : Args) (w w1 : World) (x : response)
    (e : exn) :
  let self := API_init (arg_server argv) (arg_api argv) in
  let result := run http json_loads argv w in
  arg_delete argv && arg_patch argv = false ->
  arg_list argv = true \/ nonempty (arg_endpoint argv) = true ->
  http (doc_request self) w = (Some x, w1) ->
  status_code x = 200 ->
  unreadable_doc x e ->
  fst result = Raise e /\
  requests_of (log (snd result)) = [doc_request self].
Proof.
  intros self result Hf Hmode Hw Hst Hx.
  pose proof (unreadable_doc_raises self x e Hx) as Hc.
  assert (Hfetch : forall verbose print_data,
             exists l,
               fetch_api_doc http self verbose print_data (State w [])
               = (Raise e, State w1 (Http (doc_request self) (Some x) :: l))
               /\ requests_of l = []).
  { intros verbose print_data. rewrite fetch_api_doc_run. cbv zeta. simpl.
    rewrite Hw, Hst, Hc. simpl. eexists. split; [reflexivity|].
    apply requests_of_doc_diagnostics. }
  unfold result, run, main, bind, parse_arguments, ret. rewrite Hf.
  fold self.
  destruct (arg_list argv).
  - destruct (Hfetch (arg_verbose argv) (arg_verbose argv)) as (l & -> & Hl).
    simpl. now rewrite Hl.
  - destruct Hmode as [Hm|Hm]; [discriminate|]. rewrite Hm. simpl.
    destruct (Hfetch (arg_verbose argv) false) as (l & -> & Hl).
    simpl. now rewrite Hl.
Qed.

Lemma add_paths_skipped self (paths : list (string * json))
    (start : catalog) :
  (forall path ops, In (path, ops) paths -> skipped self path) ->
  add_paths self paths start = Ok start.
Proof.
  induction paths as [|[path ops] rest IH]; intros H; simpl; [reflexivity|].
  assert (Hrest : add_paths self rest start = Ok start).
  { apply IH. intros p o Hin. apply (H p o). now right. }
  destruct (H path ops (or_introl eq_refl)) as [Hs|Hs].
  - rewrite Hs. exact Hrest.
  - rewrite Hs. destruct (Str.startswith path (api self)); exact Hrest.
Qed.

(** X9. The operations of a path outside the prefix, or of one that
    ends in "-info", are never looked at: a document all of whose paths
    are of these kinds gives the empty catalog, whatever is stored under
    them. *)
Theorem skipped_paths_ignored self (d : list (string * json))
    (paths : list (string * json)) :
  Dict.get "paths" d = Some (JObj paths) ->
  (forall path ops, In (path, ops) paths -> skipped self path) ->
  build_catalog self (JObj d) = Ok [].
Proof.
  intros Hp Hs. unfold build_catalog. simpl.
  unfold Dict.get_default. rewrite Hp. simpl.
  apply add_paths_skipped, Hs.
Qed.

End Extras.

(* ---------------------------------------------------------------- *)
(** *** What the catalog holds *)

Lemma upper_char_idempotent (a : ascii) :
  Str.upper_char (Str.upper_char a) = Str.upper_char a.
Proof. destruct a as [[] [] [] [] [] [] [] []]; reflexivity. Qed.

Lemma upper_idempotent (s : string) : Str.upper (Str.upper s) = Str.upper s.
Proof.
  induction s as [|a r IH]; simpl; [reflexivity|].
  now rewrite upper_char_idempotent, IH.
Qed.

Lemma in_set {V} (k x : string) (v y : V) (d : Dict.t V) :
  In (x, y) (Dict.set k v d) -> (x = k /\ y = v) \/ In (x, y) d.
Proof.
  induction d as [|[k' v'] r IH]; simpl.
  - intros [E|[]]. injection E as <- <-. auto.
  - destruct (String.eqb_spec k' k) as [->|Hk]; simpl.
    + intros [E|H]; [injection E as <- <-|]; auto.
    + intros [E|H]; [auto|]. destruct (IH H); auto.
Qed.

Lemma get_in {V} (k : string) (v : V) (d : Dict.t V) :
  Dict.get k d = Some v -> In (k, v) d.
Proof.
  induction d as [|[k' v'] r IH]; simpl; [discriminate|].
  destruct (String.eqb_spec k' k) as [->|Hk].
  - intros E. injection E as ->. now left.
  - intros H. right. apply IH, H.
Qed.

Section CatalogInvariant.

(** A property of the method names and descriptors that [describe]
    establishes holds of every entry of the catalog. *)
Variable P : string -> descriptor -> Prop.
Hypothesis describe_P :
  forall endpoint m0 details d,
    describe endpoint (Str.upper m0) details = Ok d -> P (Str.upper m0) d.

Lemma add_methods_inv (endpoint : string) (ops : list (string * json)) :
  forall ms ms',
    (forall m d, In (m, d) ms -> P m d) ->
    add_methods endpoint ops ms = Ok ms' ->
    forall m d, In (m, d) ms' -> P m d.
Proof.
  induction ops as [|[m0 details] rest IH]; intros ms ms' Hms H; simpl in H.
  - now injection H as <-.
  - destruct (describe endpoint (Str.upper m0) details) as [d0|] eqn:Hd;
      [|discriminate].
    simpl in H. apply (IH (Dict.set (Str.upper m0) d0 ms)); [|exact H].
    intros m d Hin. destruct (in_set _ _ _ _ _ Hin) as [[-> ->]|Hin'].
    + apply (describe_P _ _ _ _ Hd).
    + apply Hms, Hin'.
Qed.

Lemma add_paths_inv (self : API) (paths : list (string * json)) :
  forall start endpoints,
    (forall e m d, listed start e m d -> P m d) ->
    add_paths self paths start = Ok endpoints ->
    forall e m d, listed endpoints e m d -> P m d.
Proof.
  induction paths as [|[path ops] rest IH]; intros start endpoints Hs H;
    simpl in H.
  - now injection H as <-.
  - destruct (Str.startswith path (api self)); simpl in H; [|eauto].
    destruct (Str.endswith path "-info"); [eauto|].
    destruct ops as [| | | | | |ops]; try discriminate.
    set (name := endpoint_name self path) in *.
    set (start' := if negb (Dict.mem name start)
                   then Dict.set name [] start else start) in *.
    assert (Hs' : forall e m d, listed start' e m d -> P m d).
    { intros e m d (ms & Hin & Hm). unfold start' in Hin.
      destruct (negb (Dict.mem name start)).
      - destruct (in_set _ _ _ _ _ Hin) as [[-> ->]|Hin']; [destruct Hm|].
        apply (Hs e). now exists ms.
      - apply (Hs e). now exists ms. }
    destruct (add_methods name ops (Dict.get_default name [] start'))
      as [ms|] eqn:Hm; [|discriminate].
    simpl in H. apply (IH (Dict.set name ms start')); [|exact H].
    intros e m d (ms' & Hin & Hmd).
    destruct (in_set _ _ _ _ _ Hin) as [[-> ->]|Hin'].
    + apply (add_methods_inv name ops (Dict.get_default name [] start') ms);
        [|exact Hm|exact Hmd].
      intros m' d' Hin0. unfold Dict.get_default in Hin0.
      destruct (Dict.get name start') as [ms0|] eqn:Hg; [|destruct Hin0].
      apply (Hs' name). exists ms0. split; [apply get_in, Hg|exact Hin0].
    + apply (Hs' e). now exists ms'.
Qed.

Lemma build_catalog_inv (self : API) (api_doc : json) (endpoints : catalog) :
  build_catalog self api_doc = Ok endpoints ->
  forall e m d, listed endpoints e m d -> P m d.
Proof.
  unfold build_catalog.
  destruct (py_get api_doc "paths" (JObj [])) as [paths|]; [|discriminate].
  simpl. destruct paths as [| | | | | |paths]; try discriminate.
  intros H. apply (add_paths_inv self paths []); [|exact H].
  intros e m d (ms & [] & _).
Qed.

End CatalogInvariant.

(** X10. The method names of the catalog are upper-case, however the
    document spells its operations: upper-casing one again changes
    nothing, so that the tests against "GET", "POST" and "PATCH" see
    every operation. *)
Theorem catalog_methods_upper (self : API) (api_doc : json)
    (endpoints : catalog) (e m : string) (d : descriptor) :
  build_catalog self api_doc = Ok endpoints ->
  listed endpoints e m d ->
  Str.upper m = m.
Proof.
  intros H.
  refine (build_catalog_inv (fun m _ => Str.upper m = m)
            _ self api_doc endpoints H e m d).
  intros endpoint m0 details d0 _. apply upper_idempotent.
Qed.

(** X11. A body description and a schema are recorded for POST and
    PATCH only: under every other method of the catalog both are
    [None], whatever the document says of a request body there. *)
Theorem catalog_schema_only_for_bodies (self : API) (api_doc : json)
    (endpoints : catalog) (e m : string) (d : descriptor) :
  build_catalog self api_doc = Ok endpoints ->
  listed endpoints e m d ->
  m <> "POST" -> m <> "PATCH" ->
  data_info d = JNull /\ schema d = JNull.
Proof.
  intros H Hl.
  refine (build_catalog_inv
            (fun m d => m <> "POST" -> m <> "PATCH" ->
                        data_info d = JNull /\ schema d = JNull)
            _ self api_doc endpoints H e m d Hl).
  clear. intros endpoint m0 details d Hd Hpost Hpatch.
  unfold describe in Hd. destruct details as [| | | | | |o]; try discriminate.
  destruct (String.eqb_spec (Str.upper m0) "POST"); [contradiction|].
  destruct (String.eqb_spec (Str.upper m0) "PATCH"); [contradiction|].
  simpl in Hd. injection Hd as <-. auto.
Qed.


Lemma nodup_set {V} (k : string) (v : V) (d : Dict.t V) :
  NoDup (Dict.keys d) -> NoDup (Dict.keys (Dict.set k v d)).
Proof.
  induction d as [|[k' v'] r IH]; simpl; intros H.
  - repeat constructor. intros [].
  - inversion H as [|? ? Hk Hr]; subst.
    destruct (String.eqb_spec k' k) as [->|Hne]; simpl.
    + now constructor.
    + constructor; [|now apply IH].
      intros Hin. apply in_keys_set in Hin. destruct Hin as [->|Hin]; auto.
Qed.

Lemma in_get {V} (k : string) (v : V) (d : Dict.t V) :
  NoDup (Dict.keys d) -> In (k, v) d -> Dict.get k d = Some v.
Proof.
  induction d as [|[k' v'] r IH]; simpl; intros H Hin; [destruct Hin|].
  inversion H as [|? ? Hk Hr]; subst.
  destruct Hin as [E|Hin].
  - injection E as -> ->. now rewrite String.eqb_refl.
  - destruct (String.eqb_spec k' k) as [->|Hne]; [|now apply IH].
    destruct Hk. apply (in_map fst) in Hin. exact Hin.
Qed.

Lemma add_methods_nodup (endpoint : string) (ops : list (string * json)) :
  forall ms ms',
    NoDup (Dict.keys ms) -> add_methods endpoint ops ms = Ok ms' ->
    NoDup (Dict.keys ms').
Proof.
  induction ops as [|[m0 details] rest IH]; intros ms ms' Hms H; simpl in H.
  - now injection H as <-.
  - destruct (describe endpoint (Str.upper m0) details) as [d0|];
      [|discriminate].
    simpl in H. apply (IH _ _ (nodup_set _ _ _ Hms) H).
Qed.

Lemma well_keyed_set (name : string) (ms : methods) (endpoints : catalog) :
  well_keyed endpoints -> NoDup (Dict.keys ms) ->
  well_keyed (Dict.set name ms endpoints).
Proof.
  intros [Ho Hi] Hms. split; [now apply nodup_set|].
  intros e ms' Hin. destruct (in_set _ _ _ _ _ Hin) as [[-> ->]|Hin'];
    [exact Hms|exact (Hi _ _ Hin')].
Qed.

Lemma add_paths_well_keyed (self : API) (paths : list (string * json)) :
  forall start endpoints,
    well_keyed start -> add_paths self paths start = Ok endpoints ->
    well_keyed endpoints.
Proof.
  induction paths as [|[path ops] rest IH]; intros start endpoints Hs H;
    simpl in H.
  - now injection H as <-.
  - destruct (Str.startswith path (api self)); simpl in H; [|eauto].
    destruct (Str.endswith path "-info"); [eauto|].
    destruct ops as [| | | | | |ops]; try discriminate.
    set (name := endpoint_name self path) in *.
    set (start' := if negb (Dict.mem name start)
                   then Dict.set name [] start else start) in *.
    assert (Hs' : well_keyed start').
    { unfold start'. destruct (negb (Dict.mem name start)); [|exact Hs].
      apply well_keyed_set; [exact Hs|constructor]. }
    destruct (add_methods name ops (Dict.get_default name [] start'))
      as [ms|] eqn:Hm; [|discriminate].
    simpl in H. apply (IH (Dict.set name ms start')); [|exact H].
    apply well_keyed_set; [exact Hs'|].
    apply (add_methods_nodup name ops (Dict.get_default name [] start'));
      [|exact Hm].
    unfold Dict.get_default.
    destruct (Dict.get name start') as [ms0|] eqn:Hg; [|constructor].
    apply (proj2 Hs' name). apply get_in, Hg.
Qed.

(** X12. The catalog is a dict of dicts even when several paths of the
    document give the same endpoint name or an operation is listed
    under two spellings: no endpoint and no method of an endpoint
    occurs twice, so that an entry is found by its key. *)
Theorem catalog_well_keyed (self : API) (api_doc : json)
    (endpoints : catalog) :
  build_catalog self api_doc = Ok endpoints ->
  well_keyed endpoints /\
  (forall e ms, In (e, ms) endpoints -> Dict.get e endpoints = Some ms) /\
  (forall e m d, listed endpoints e m d ->
     exists ms, Dict.get e endpoints = Some ms /\ Dict.get m ms = Some d).
Proof.
  unfold build_catalog.
  destruct (py_get api_doc "paths" (JObj [])) as [paths|]; [|discriminate].
  simpl. destruct paths as [| | | | | |paths]; try discriminate.
  intros H.
  assert (Hw : well_keyed endpoints).
  { apply (add_paths_well_keyed self paths []); [|exact H].
    split; [constructor|intros e ms []]. }
  split; [exact Hw|]. destruct Hw as [Ho Hi]. split.
  - intros e ms Hin. now apply in_get.
  - intros e m d (ms & He & Hm). exists ms. split; apply in_get; auto.
    exact (Hi e ms He).
Qed.

(* ---------------------------------------------------------------- *)
(** *** Building the body, again *)

Lemma is_str_false (v : json) (s : string) :
  v <> JStr s -> is_str v s = false.
Proof.
  destruct v; simpl; auto.
  intros H. destruct (String.eqb_spec s0 s); congruence.
Qed.

Section BodyEdges.

Variable World : Type.
Variable json_loads : string -> option json.

Implicit Types (s : state World) (args : Args) (endpoints : catalog).


(** X15. A schema that is neither [None] nor a dict (the JSON [true],
    say, or a string) is not handled: building the body of a value
    that is not an object raises [AttributeError], before anything is
    printed. *)
Theorem bad_schema_raises (http_method : string) args endpoints
    (raw : string) s :
  body_method http_method ->
  arg_data args = Some raw ->
  is_dict (loads_or_text json_loads raw) = false ->
  schema_for http_method args endpoints <> JNull ->
  is_dict (schema_for http_method args endpoints) = false ->
  process_post_data json_loads http_method args endpoints s
  = (Raise AttributeError, s).
Proof.
  intros Hm Hd Hnd Hs Hds. unfold process_post_data.
  rewrite (body_method_test _ Hm), Hd. simpl. rewrite Hnd.
  destruct (schema_for http_method args endpoints);
    try reflexivity; [congruence|discriminate].
Qed.

(** X16. The value is coerced only for a property declared a "number".
    When the single required property is not described under
    ["properties"], or is declared of another type, the decoded value
    is wrapped as it is: [75] typed for a "string" property is sent as
    the integer 75. *)
Theorem no_coercion_unless_number (http_method : string) args endpoints
    (raw : string) (sch props p : list (string * json)) (key : string) s :
  body_method http_method ->
  arg_data args = Some raw ->
  is_dict (loads_or_text json_loads raw) = false ->
  schema_for http_method args endpoints = JObj sch ->
  Dict.get "type" sch = Some (JStr "object") ->
  Dict.get "required" sch = Some (JArr [JStr key]) ->
  Dict.get_default "properties" (JObj []) sch = JObj props ->
  Dict.get_default key (JObj []) props = JObj p ->
  Dict.get "type" p <> Some (JStr "number") ->
  process_post_data json_loads http_method args endpoints s
  = (Ok (Some (Wrapped (JStr key) (loads_or_text json_loads raw))), s).
Proof.
  intros Hm Hd Hnd Hs Ht Hr Hp Hk Hn.
  assert (Ht' : Dict.get_default "type" JNull sch = JStr "object")
    by (unfold Dict.get_default; now rewrite Ht).
  assert (Hr' : Dict.get_default "required" (JArr []) sch = JArr [JStr key])
    by (unfold Dict.get_default; now rewrite Hr).
  assert (Hn' : is_str (Dict.get_default "type" JNull p) "number" = false).
  { apply is_str_false. unfold Dict.get_default.
    destruct (Dict.get "type" p); congruence. }
  unfold process_post_data.
  rewrite (body_method_test _ Hm), Hd. simpl. rewrite Hnd, Hs.
  unfold bind, lift, ret, py_get. rewrite Ht', Hp, Hr'.
  cbn [is_str String.eqb Ascii.eqb Bool.eqb negb py_len py_first
       List.length Nat.eqb py_get_key].
  rewrite Hk, Hn'. reflexivity.
Qed.

End BodyEdges.

(* ================================================================== *)
(** ** The earlier script and the package *)

(** X21. Without [--patch] and [--delete] the package resolves the
    method as the earlier script did, for every catalog. *)
Theorem legacy_method_agrees (args : Args) (endpoints : catalog) :
  arg_delete args = false -> arg_patch args = false ->
  determine_http_method args endpoints
  = Legacy.http_method_of args endpoints.
Proof.
  intros Hd Hp. unfold determine_http_method, Legacy.http_method_of,
    known_methods.
  rewrite Hd, Hp. destruct (arg_data args); [reflexivity|].
  destruct (arg_endpoint args) as [e|]; [|reflexivity].
  destruct (Dict.get e endpoints); reflexivity.
Qed.

(** X22. The earlier script removes one "/" after the prefix, the
    package all of them: the name of the package is the name of the
    script without its leading "/" characters, and the two are the
    same exactly when the script's name does not start with "/". *)
Theorem legacy_endpoint_name (self : API) (path : string) :
  endpoint_name self path = Str.lstrip "/" (Legacy.endpoint_name self path) /\
  (endpoint_name self path = Legacy.endpoint_name self path <->
   forall rest, Legacy.endpoint_name self path <> String "/" rest).
Proof.
  unfold endpoint_name, Legacy.endpoint_name. cbv zeta.
  set (tail := Str.slice_from (String.length (api self)) path).
  set (name := if Str.startswith tail "/" then Str.slice_from 1 tail
               else tail).
  assert (E : Str.lstrip "/" tail = Str.lstrip "/" name).
  { unfold name. destruct tail as [|a rest]; [reflexivity|].
    destruct a as [[] [] [] [] [] [] [] []]; try reflexivity.
    destruct rest; reflexivity. }
  split; [exact E|]. rewrite E. split.
  - intros H rest Hn. apply (lstrip_no_leading "/" name rest). congruence.
  - intros H. destruct name as [|a rest]; [reflexivity|]. simpl.
    destruct (Ascii.eqb_spec a "/") as [->|Ha]; [|reflexivity].
    destruct (H rest eq_refl).
Qed.

Section LegacyRuns.

Variable World : Type.
Variable http : request -> World -> option response * World.
Variable json_loads : string -> option json.

Implicit Types (s : state World) (args : Args) (endpoints : catalog)
  (self : API).

Lemma legacy_fetch_requests self (verbose : bool) s (r : outcome catalog) s' :
  Legacy.fetch_api_doc http self verbose s = (r, s') ->
  requests_of (log s') = (requests_of (log s) ++ [doc_request self])%list.
Proof.
  unfold Legacy.fetch_api_doc, bind. rewrite send_run.
  destruct (http (doc_request self) (world s)) as [[x|] w1].
  2:{ intros H. injection H as _ <-. simpl.
      autorewrite with requests. reflexivity. }
  unfold when, print, emit, ret, lift, response_json, raise.
  destruct verbose, (status_code x =? 200),
    (negb (String.eqb (Str.strip (text x)) EmptyString)),
    (json_body x); simpl;
    intros H; injection H as _ <-; simpl;
    autorewrite with requests; simpl; rewrite ?app_nil_r; reflexivity.
Qed.

(** X20. In the earlier script a value that is not an object, for an
    endpoint that the catalog does not know or for which it lists no
    POST, ends the run after the message "No POST data schema for ...":
    [main] returns, and neither the authentication nor the request is
    sent. *)
Theorem legacy_missing_schema_returns args (w : World) (raw : string)
    endpoints s0 :
  let self := API_init (arg_server args) (arg_api args) in
  arg_list args = false ->
  nonempty (arg_endpoint args) = true ->
  arg_data args = Some raw ->
  is_dict (loads_or_text json_loads raw) = false ->
  Legacy.fetch_api_doc http self false (State w []) = (Ok endpoints, s0) ->
  (forall ms, known_methods args endpoints = Some ms ->
              Dict.get "POST" ms = None) ->
  Legacy.run http json_loads args w
  = (Ok tt,
     State (world s0)
       (log s0 ++ [Out [Lit ("No POST data schema for "
                             ++ endpoint_text args)]])) /\
  requests_of (log (snd (Legacy.run http json_loads args w)))
  = [doc_request self].
Proof.
  intros self Hl He Hd Hnd Hf Hs.
  assert (Hps : Legacy.post_schema args endpoints = None).
  { unfold Legacy.post_schema.
    destruct (known_methods args endpoints) as [ms|] eqn:Hk; [|reflexivity].
    now rewrite (Hs ms eq_refl). }
  assert (E : Legacy.run http json_loads args w
              = (Ok tt,
                 State (world s0)
                   (log s0 ++ [Out [Lit ("No POST data schema for "
                                         ++ endpoint_text args)]]))).
  { unfold Legacy.run, Legacy.main, bind. rewrite Hl, He. simpl.
    fold self. rewrite Hf.
    unfold lift, Legacy.http_method_of, Legacy.build_post_data.
    rewrite Hd. simpl. rewrite Hnd, Hps. reflexivity. }
  split; [exact E|]. rewrite E. simpl. autorewrite with requests. simpl.
  rewrite (legacy_fetch_requests _ _ _ _ _ Hf). reflexivity.
Qed.

(** X23. Without [--verbose] the earlier script shows the result of a
    response with status 200 only: after another status that is not an
    error (201, say) nothing is printed, where the package prints the
    value. *)
Theorem legacy_shows_only_200 self (token : json)
    (endpoint http_method : string) (post_data : option payload) s
    (resp : response) (w' : World) :
  let r := main_request self token endpoint http_method post_data in
  http r (world s) = (Some resp, w') ->
  ok resp = true ->
  status_code resp <> 200 ->
  Legacy.make_request http self token endpoint http_method false post_data s
  = (Ok tt, State w' (log s ++ [Http r (Some resp)])) /\
  make_request http self token endpoint http_method false post_data s
  = (Ok tt, State w' (log s ++ Http r (Some resp)
                            :: result_lines (parse_response resp))).
Proof.
  intros r Hw Hok Hst. apply Z.eqb_neq in Hst. split.
  - unfold Legacy.make_request, bind, when, ret. rewrite send_run.
    fold r. rewrite Hw, Hok, Hst. reflexivity.
  - rewrite make_request_run. cbv zeta. fold r. rewrite Hw.
    unfold response_lines, body_echo. rewrite Hok. reflexivity.
Qed.

Lemma post_schema_known args endpoints (ms : methods) (d : descriptor) :
  known_methods args endpoints = Some ms ->
  Dict.get "POST" ms = Some d ->
  Legacy.post_schema args endpoints = Some (schema d) /\
  schema_for "POST" args endpoints = schema d.
Proof.
  intros Hk Hp. split.
  - unfold Legacy.post_schema. now rewrite Hk, Hp.
  - unfold schema_for, endpoint_doc. unfold known_methods in Hk.
    destruct (arg_endpoint args) as [e|]; [|discriminate].
    unfold Dict.get_default.
    change (list (string * descriptor)) with methods.
    now rewrite Hk, Hp.
Qed.

(** X24. In the earlier script a required property that ["properties"]
    does not describe is a [KeyError] that nothing catches, raised
    while the body is built; the package wraps the value under the
    property instead. *)
Theorem legacy_missing_property_raises args endpoints (raw : string)
    (ms : methods) (d : descriptor)
    (sch props : list (string * json)) (key : string) s :
  arg_data args = Some raw ->
  is_dict (loads_or_text json_loads raw) = false ->
  known_methods args endpoints = Some ms ->
  Dict.get "POST" ms = Some d ->
  schema d = JObj sch ->
  Dict.get "type" sch = Some (JStr "object") ->
  Dict.get "required" sch = Some (JArr [JStr key]) ->
  Dict.get "properties" sch = Some (JObj props) ->
  Dict.get key props = None ->
  Legacy.build_post_data json_loads "POST" args endpoints s
  = (Raise KeyError, s) /\
  process_post_data json_loads "POST" args endpoints s
  = (Ok (Some (Wrapped (JStr key) (loads_or_text json_loads raw))), s).
Proof.
  intros Hd Hnd Hk Hpost Hsch Ht Hr Hp Hkey.
  destruct (post_schema_known _ _ _ _ Hk Hpost) as [Hps Hs].
  rewrite Hsch in Hps, Hs.
  assert (Htr : truthy (JObj sch) = true)
    by (destruct sch; [discriminate|reflexivity]).
  split.
  - unfold Legacy.build_post_data. rewrite Hd. simpl. rewrite Hnd, Hps.
    unfold bind, lift, Legacy.wrap_required.
    rewrite Htr. simpl. unfold Dict.get_default. rewrite Ht, Hp, Hr. simpl.
    rewrite Hkey. reflexivity.
  - unfold process_post_data. rewrite Hd. simpl. rewrite Hnd, Hs.
    unfold bind, lift, ret, py_get, Dict.get_default.
    rewrite Ht, Hp, Hr. simpl. unfold Dict.get_default. rewrite Hkey.
    reflexivity.
Qed.


End LegacyRuns.

(* ================================================================== *)
(** ** The further properties on the player *)

Lemma usage_error_sends_nothing_witness :
  play doc_ok auth_ok no_content both_flags
  = (Raise (SystemExit 2),
     State tt [Usage
       "Cannot specify both --delete and --patch options simultaneously."]).
Proof.
  apply (usage_error_sends_nothing unit
           (serve (player doc_ok auth_ok no_content)) Decoder.loads
           both_flags tt); reflexivity.
Defined.

Lemma list_only_fetches_witness :
  requests_of (log (snd (play doc_ok auth_ok no_content list_call)))
  = [doc_request local_api] /\
  fst (play doc_ok auth_ok no_content list_call) = Ok tt.
Proof.
  destruct (list_only_fetches unit (serve (player doc_ok auth_ok no_content))
              Decoder.loads list_call tt eq_refl eq_refl) as [Hreq Hlist].
  split; [exact Hreq|].
  apply (Hlist player_catalog
           (snd (fetch_api_doc (serve (player doc_ok auth_ok no_content))
                   local_api false false (State tt [])))).
  vm_compute. reflexivity.
Defined.

Lemma make_request_failure_witness :
  400 <= status_code not_found < 600 /\
  printed_of
    (log (snd (make_request (serve (player doc_ok auth_ok not_found))
                 local_api (JStr "secret") "shuffle" "POST" true None
                 (State tt []))))
  = [[Lit "Request failed: 404 Not Found"];
     [Lit "http://localhost:26538/api/v1/shuffle"]].
Proof.
  assert (Hst : 400 <= status_code not_found < 600)
    by (change (400 <= 404 < 600); lia).
  split; [exact Hst|].
  rewrite (make_request_failure unit (serve (player doc_ok auth_ok not_found))
             local_api (JStr "secret") "shuffle" "POST" true None
             (State tt []) not_found tt eq_refl Hst).
  vm_compute. reflexivity.
Defined.

Lemma falsy_response_silent_witness :
  json_body zero_content = Some (JInt 0) /\
  make_request (serve (player doc_ok auth_ok zero_content)) local_api
    (JStr "secret") "volume" "GET" false None (State tt [])
  = (Ok tt,
     State tt [Http (main_request local_api (JStr "secret") "volume" "GET"
                       None) (Some zero_content)]).
Proof.
  assert (Hj : json_body zero_content = Some (JInt 0))
    by (vm_compute; reflexivity).
  split; [exact Hj|].
  apply (falsy_response_silent unit
           (serve (player doc_ok auth_ok zero_content)) local_api
           (JStr "secret") "volume" "GET" false None (State tt [])
           zero_content tt (JInt 0) eq_refl eq_refl Hj).
  right. right. left. reflexivity.
Defined.

Lemma token_missing_silent_witness :
  json_body auth_empty = Some (JObj []) /\
  fst (play doc_ok auth_empty no_content (call "play" None)) = Ok tt /\
  requests_of (log (snd (play doc_ok auth_empty no_content
                           (call "play" None))))
  = [doc_request local_api; auth_request local_api local_user] /\
  printed_of (log (snd (play doc_ok auth_empty no_content
                          (call "play" None)))) = [].
Proof.
  assert (Hj : json_body auth_empty = Some (JObj []))
    by (vm_compute; reflexivity).
  split; [exact Hj|].
  destruct (token_missing_silent unit
              (serve (player doc_ok auth_empty no_content)) Decoder.loads
              (call "play" None) tt
              (fst (play doc_ok auth_empty no_content (call "play" None)))
              (snd (play doc_ok auth_empty no_content (call "play" None)))
              auth_empty [] (surjective_pairing _)
              ltac:(vm_compute; auto) eq_refl Hj
              ltac:(left; reflexivity))
    as (Hres & Hreq & _).
  split; [exact Hres|]. split; [exact Hreq|]. vm_compute. reflexivity.
Defined.

Lemma token_unreadable_raises_witness :
  json_body auth_page = None /\
  fst (play doc_ok auth_page no_content (call "play" None))
  = Raise JSONDecodeError /\
  requests_of (log (snd (play doc_ok auth_page no_content
                           (call "play" None))))
  = [doc_request local_api; auth_request local_api local_user].
Proof.
  assert (Hj : json_body auth_page = None) by (vm_compute; reflexivity).
  split; [exact Hj|].
  destruct (token_unreadable_raises unit
              (serve (player doc_ok auth_page no_content)) Decoder.loads
              (call "play" None) tt
              (fst (play doc_ok auth_page no_content (call "play" None)))
              (snd (play doc_ok auth_page no_content (call "play" None)))
              auth_page (surjective_pairing _)
              ltac:(vm_compute; auto) eq_refl)
    as (Hnone & _ & Hreq).
  split; [exact (Hnone Hj)|exact (Hreq (or_introl Hj))].
Defined.

Lemma doc_unreadable_raises_witness :
  unreadable_doc doc_page JSONDecodeError /\
  fst (play doc_page auth_ok no_content (call "play" None))
  = Raise JSONDecodeError /\
  requests_of (log (snd (play doc_page auth_ok no_content
                           (call "play" None))))
  = [doc_request local_api].
Proof.
  assert (Hx : unreadable_doc doc_page JSONDecodeError).
  { left. split; [vm_compute|]; reflexivity. }
  split; [exact Hx|].
  apply (doc_unreadable_raises unit
           (serve (player doc_page auth_ok no_content)) Decoder.loads
           (call "play" None) tt tt doc_page JSONDecodeError
           eq_refl (or_intror eq_refl) eq_refl eq_refl Hx).
Defined.

Lemma skipped_paths_ignored_witness :
  (forall path ops, In (path, ops) foreign_paths -> skipped local_api path) /\
  build_catalog local_api (JObj [("paths", JObj foreign_paths)]) = Ok [].
Proof.
  assert (Hs : forall path ops,
             In (path, ops) foreign_paths -> skipped local_api path).
  { intros path ops [E|[E|[]]]; injection E as <- _;
      [left|right]; reflexivity. }
  split; [exact Hs|].
  apply (skipped_paths_ignored local_api [("paths", JObj foreign_paths)]
           foreign_paths eq_refl Hs).
Defined.

Lemma catalog_methods_upper_witness :
  build_catalog local_api player_api_doc = Ok player_catalog /\
  listed player_catalog "play" "POST" (Descriptor (JStr "Play") JNull JNull) /\
  Str.upper "POST" = "POST".
Proof.
  assert (Hb : build_catalog local_api player_api_doc = Ok player_catalog)
    by (vm_compute; reflexivity).
  assert (Hl : listed player_catalog "play" "POST"
                 (Descriptor (JStr "Play") JNull JNull)).
  { exists [("POST", Descriptor (JStr "Play") JNull JNull)].
    split; vm_compute; auto. }
  split; [exact Hb|]. split; [exact Hl|].
  apply (catalog_methods_upper local_api player_api_doc player_catalog
           "play" "POST" (Descriptor (JStr "Play") JNull JNull) Hb Hl).
Defined.

Lemma catalog_schema_only_for_bodies_witness :
  build_catalog local_api like_doc = Ok [("like", [("GET", like_descriptor)])]
  /\
  data_info like_descriptor = JNull /\ schema like_descriptor = JNull.
Proof.
  assert (Hb : build_catalog local_api like_doc
               = Ok [("like", [("GET", like_descriptor)])])
    by (vm_compute; reflexivity).
  split; [exact Hb|].
  apply (catalog_schema_only_for_bodies local_api like_doc
           [("like", [("GET", like_descriptor)])] "like" "GET"
           like_descriptor Hb).
  - exists [("GET", like_descriptor)]. split; now left.
  - discriminate.
  - discriminate.
Defined.

Lemma catalog_well_keyed_witness :
  Dict.keys
    match build_catalog local_api twice_doc with
    | Ok endpoints => endpoints
    | Raise _ => []
    end = ["next"] /\
  forall endpoints,
    build_catalog local_api twice_doc = Ok endpoints ->
    well_keyed endpoints.
Proof.
  split; [vm_compute; reflexivity|].
  intros endpoints H.
  apply (catalog_well_keyed local_api twice_doc endpoints H).
Defined.

Lemma delete_drops_data_witness :
  requests_of (log (snd (play doc_ok auth_ok no_content delete_call)))
  = [doc_request local_api; auth_request local_api local_user;
     main_request local_api (JStr "secret") "play" "DELETE" None] /\
  req_json (main_request local_api (JStr "secret") "play" "DELETE" None)
  = None.
Proof.
  assert (Hr : requests_of
                 (log (snd (play doc_ok auth_ok no_content delete_call)))
               = [doc_request local_api; auth_request local_api local_user;
                  main_request local_api (JStr "secret") "play" "DELETE"
                    None])
    by (vm_compute; reflexivity).
  split; [exact Hr|].
  apply (delete_drops_data unit (serve (player doc_ok auth_ok no_content))
           Decoder.loads delete_call tt
           (main_request local_api (JStr "secret") "play" "DELETE" None)
           eq_refl).
  unfold play in Hr. rewrite Hr. right. right. now left.
Defined.


Lemma bad_schema_raises_witness :
  process_post_data Decoder.loads "POST" (call "seek" (Some "10"))
    (seek_catalog (JBool true)) (State tt [])
  = (Raise AttributeError, State tt []).
Proof.
  apply (bad_schema_raises unit Decoder.loads "POST"
           (call "seek" (Some "10")) (seek_catalog (JBool true)) "10"
           (State tt []) (or_introl eq_refl) eq_refl eq_refl
           ltac:(discriminate) eq_refl).
Defined.

Lemma no_coercion_unless_number_witness :
  process_post_data Decoder.loads "POST" (call "seek" (Some "75"))
    (seek_catalog (JObj name_schema)) (State tt [])
  = (Ok (Some (Wrapped (JStr "name") (JInt 75))), State tt []).
Proof.
  apply (no_coercion_unless_number unit Decoder.loads "POST"
           (call "seek" (Some "75")) (seek_catalog (JObj name_schema)) "75"
           name_schema [("name", JObj [("type", JStr "string")])]
           [("type", JStr "string")] "name" (State tt [])
           (or_introl eq_refl) eq_refl eq_refl eq_refl eq_refl eq_refl
           eq_refl eq_refl ltac:(discriminate)).
Defined.

Lemma request_needs_token_witness :
  In (main_request local_api (JStr "secret") "volume" "POST"
        (Some (Wrapped (JStr "volume") (JInt 75))))
     (requests_of (log (snd (play doc_ok auth_ok no_content
                               (call "volume" (Some "75")))))) /\
  exists y body,
    status_code y = 200 /\ json_body y = Some (JObj body) /\
    Dict.get "accessToken" body = Some (JStr "secret").
Proof.
  assert (Hin : In (main_request local_api (JStr "secret") "volume" "POST"
                      (Some (Wrapped (JStr "volume") (JInt 75))))
                  (requests_of
                     (log (snd (play doc_ok auth_ok no_content
                                  (call "volume" (Some "75")))))))
    by (vm_compute; auto).
  split; [exact Hin|].
  destruct (request_needs_token unit
              (serve (player doc_ok auth_ok no_content)) Decoder.loads
              (call "volume" (Some "75")) tt _ (JStr "secret") Hin eq_refl)
    as (_ & _ & y & body & _ & Hst & Hj & Ht).
  exists y, body. auto.
Defined.

Lemma request_as_prepared_witness :
  In (main_request local_api (JStr "secret") "volume" "POST"
        (Some (Wrapped (JStr "volume") (JInt 75))))
     (requests_of (log (snd (play doc_ok auth_ok no_content
                               (call "volume" (Some "75")))))) /\
  exists endpoints,
    determine_http_method (call "volume" (Some "75")) endpoints = Ok "POST".
Proof.
  assert (Hin : In (main_request local_api (JStr "secret") "volume" "POST"
                      (Some (Wrapped (JStr "volume") (JInt 75))))
                  (requests_of
                     (log (snd (play doc_ok auth_ok no_content
                                  (call "volume" (Some "75")))))))
    by (vm_compute; auto).
  split; [exact Hin|].
  destruct (request_as_prepared unit
              (serve (player doc_ok auth_ok no_content)) Decoder.loads
              (call "volume" (Some "75")) tt _ (JStr "secret") Hin eq_refl)
    as (endpoints & s0 & s1 & _ & Hm & _ & _).
  exists endpoints. exact Hm.
Defined.

Lemma legacy_method_agrees_witness :
  determine_http_method (call "stream" None) stream_catalog = Ok "PATCH" /\
  Legacy.http_method_of (call "stream" None) stream_catalog = Ok "PATCH".
Proof.
  split; [reflexivity|].
  rewrite <- (legacy_method_agrees (call "stream" None) stream_catalog
                eq_refl eq_refl).
  reflexivity.
Defined.

Lemma legacy_missing_schema_returns_witness :
  known_methods (call "shuffle" (Some "50")) player_catalog = None /\
  printed_of (log (snd (legacy_play doc_ok auth_ok no_content
                          (call "shuffle" (Some "50")))))
  = [[Lit "No POST data schema for shuffle"]] /\
  requests_of (log (snd (legacy_play doc_ok auth_ok no_content
                           (call "shuffle" (Some "50")))))
  = [doc_request local_api].
Proof.
  assert (Hk : known_methods (call "shuffle" (Some "50")) player_catalog
               = None) by (vm_compute; reflexivity).
  split; [exact Hk|].
  destruct (legacy_missing_schema_returns unit
              (serve (player doc_ok auth_ok no_content)) Decoder.loads
              (call "shuffle" (Some "50")) tt "50" player_catalog
              (snd (Legacy.fetch_api_doc
                      (serve (player doc_ok auth_ok no_content)) local_api
                      false (State tt [])))
              eq_refl eq_refl eq_refl eq_refl
              ltac:(vm_compute; reflexivity)
              ltac:(intros ms H; rewrite Hk in H; discriminate H))
    as [Hrun Hreq].
  split; [|exact Hreq].
  unfold legacy_play. rewrite Hrun. vm_compute. reflexivity.
Defined.

Lemma legacy_shows_only_200_witness :
  ok created = true /\ status_code created <> 200 /\
  printed_of
    (log (snd (Legacy.make_request (serve (player doc_ok auth_ok created))
                 local_api (JStr "secret") "queue" "POST" false None
                 (State tt [])))) = [] /\
  printed_of
    (log (snd (make_request (serve (player doc_ok auth_ok created))
                 local_api (JStr "secret") "queue" "POST" false None
                 (State tt []))))
  = [[Dumps (Loaded (JObj [("id", JInt 1)]))]].
Proof.
  assert (Hst : status_code created <> 200) by (vm_compute; discriminate).
  split; [reflexivity|]. split; [exact Hst|].
  destruct (legacy_shows_only_200 unit
              (serve (player doc_ok auth_ok created)) local_api
              (JStr "secret") "queue" "POST" None (State tt []) created tt
              eq_refl eq_refl Hst) as [Hl Hp].
  rewrite Hl, Hp. split; vm_compute; reflexivity.
Defined.

Lemma legacy_missing_property_raises_witness :
  Legacy.build_post_data Decoder.loads "POST" (call "seek" (Some "5"))
    (seek_catalog (JObj level_schema)) (State tt [])
  = (Raise KeyError, State tt []) /\
  process_post_data Decoder.loads "POST" (call "seek" (Some "5"))
    (seek_catalog (JObj level_schema)) (State tt [])
  = (Ok (Some (Wrapped (JStr "level") (JInt 5))), State tt []).
Proof.
  apply (legacy_missing_property_raises unit Decoder.loads
           (call "seek" (Some "5")) (seek_catalog (JObj level_schema)) "5"
           [("POST", Descriptor (JStr "Seek") (JStr "seconds")
                       (JObj level_schema))]
           (Descriptor (JStr "Seek") (JStr "seconds") (JObj level_schema))
           level_schema [] "level" (State tt [])
           eq_refl eq_refl eq_refl eq_refl eq_refl eq_refl eq_refl eq_refl
           eq_refl).
Defined.

